(** * The operation orchestration scripts of cloudpanel-api

    A shallow embedding of the shell scripts that drive the [operations]
    table: [core/database.sh], [core/logging.sh],
    [orchestrator/queue_worker.sh], [orchestrator/status_monitor.sh], the
    handler registry file [orchestrator/operation_types.conf], the handlers
    [sites/manage_site.sh] and [user/manage_user.sh], and the permission
    lines of [install.sh].

    Conventions of the model.
    - The SQLite tables [operations] and [operations_archive] are lists of
      rows in rowid order.  [id] is the primary key; the predicate
      [ids_unique] states that constraint where a result depends on it.
    - A timestamp column holds seconds as a [Z]; [None] is SQL NULL.  A
      comparison with NULL is not true, so a NULL timestamp never satisfies
      a WHERE clause.  Every statement reads the clock once.
    - A script is run the way bash runs it: command by command, a function
      being known from the point where its definition has been read.  A
      definition whose reserved words do not nest is a syntax error, which
      ends the script with status 2.  A name that is neither a function nor
      a program is "command not found", status 127.  Under [set -e] a
      command that fails inside a function ends the shell with its status;
      the ERR trap is not inherited by functions and does not run there.
    - The two daemons meet the world outside the tables through a [host]:
      the answer of the database to each statement (a clock reading, or a
      refusal when the database is locked), the exit status of a logging
      function where one is defined, and the readings of [date].
    - The functions of core/database.sh paste their text arguments into the
      statement.  Their model gives the table after the call for a text
      that is the SQL literal it is meant to be ([sql_literal]: no single
      quote); the properties that range over such texts assume it.
    - The scripts run one statement after the other; no interleaving of two
      processes inside a function is modelled. *)

From Stdlib Require Import ZArith List String Ascii Bool Lia.
From Stdlib Require Import Permutation Sorted.
Import ListNotations.
Local Open Scope string_scope.
Local Open Scope list_scope.
Local Open Scope Z_scope.

(** ** The data model *)

(** [status] column: the four values the scripts write and query. *)
Inductive op_status : Type :=
| pending
| processing
| completed
| failed.

(** [source] column, [VARCHAR(10) DEFAULT 'ui']. *)
Inductive op_source : Type :=
| api
| ui.

(** The [data] column is a JSON object; the handlers only read top-level
    string fields of it with [jq -r '.field']. *)
Definition json_object : Type := list (string * string).

Record operation : Type := mkOperation {
  id : Z;
  type : string;
  data : json_object;
  status : op_status;
  source : op_source;
  retry_count : Z;
  error : option string;
  result : option string;
  created_at : Z;
  started_at : option Z;
  completed_at : option Z
}.

Definition status_eqb (a b : op_status) : bool :=
  match a, b with
  | pending, pending | processing, processing
  | completed, completed | failed, failed => true
  | _, _ => false
  end.

Definition source_eqb (a b : op_source) : bool :=
  match a, b with
  | api, api | ui, ui => true
  | _, _ => false
  end.

(** Equality of rows is decidable; [count_occ] counts the copies of a row
    in a table with it. *)
Definition operation_eq_dec (a b : operation) : {a = b} + {a <> b}.
Proof.
  decide equality;
    try apply Z.eq_dec; try apply string_dec;
    try (decide equality; try apply Z.eq_dec; apply string_dec).
  apply list_eq_dec. decide equality; apply string_dec.
Defined.

(** [status IN ('completed', 'failed')] *)
Definition terminal (s : op_status) : bool :=
  match s with
  | completed | failed => true
  | _ => false
  end.

(** [bound > column] on a nullable timestamp column. *)
Definition older_than (bound : Z) (column : option Z) : bool :=
  match column with
  | Some t => t <? bound
  | None => false
  end.

(** [UPDATE operations SET ... WHERE <cond>]: every row that satisfies the
    condition is rewritten in place, the others are kept. *)
Definition update_where (cond : operation -> bool)
    (set : operation -> operation) (ops : list operation) : list operation :=
  map (fun r => if cond r then set r else r) ops.

Definition has_id (operation_id : Z) (r : operation) : bool :=
  id r =? operation_id.

(** The primary-key constraint on [operations.id]. *)
Definition ids_unique (ops : list operation) : Prop :=
  NoDup (map id ops).

(** The two tables. *)
Record store : Type := mkStore {
  operations : list operation;
  operations_archive : list operation
}.

(** ** core/database.sh *)

(** [SET status = 'processing', started_at = datetime('now')] *)
Definition set_processing (now : Z) (r : operation) : operation :=
  mkOperation (id r) (type r) (data r) processing (source r) (retry_count r)
    (error r) (result r) (created_at r) (Some now) (completed_at r).

(** [SET status = 'completed', completed_at = datetime('now')] *)
Definition set_completed (now : Z) (r : operation) : operation :=
  mkOperation (id r) (type r) (data r) completed (source r) (retry_count r)
    (error r) (result r) (created_at r) (started_at r) (Some now).

(** [SET status = 'failed', completed_at = datetime('now'), error = '$error_message'] *)
Definition set_failed (now : Z) (error_message : string) (r : operation)
    : operation :=
  mkOperation (id r) (type r) (data r) failed (source r) (retry_count r)
    (Some error_message) (result r) (created_at r) (started_at r) (Some now).

(** [update_operation_status operation_id status error_message]: one of three
    UPDATE statements chosen by the status string; for any other status the
    SQL text stays empty and nothing is written. *)
Definition update_operation_status (operation_id : Z) (st : op_status)
    (error_message : string) (now : Z) (ops : list operation)
    : list operation :=
  match st with
  | processing => update_where (has_id operation_id) (set_processing now) ops
  | completed => update_where (has_id operation_id) (set_completed now) ops
  | failed =>
      update_where (has_id operation_id) (set_failed now error_message) ops
  | pending => ops
  end.

(** [SET result = json('$result')] *)
Definition set_result (res : string) (r : operation) : operation :=
  mkOperation (id r) (type r) (data r) (status r) (source r) (retry_count r)
    (error r) (Some res) (created_at r) (started_at r) (completed_at r).

Definition store_operation_result (operation_id : Z) (res : string)
    (ops : list operation) : list operation :=
  update_where (has_id operation_id) (set_result res) ops.

(** [SELECT json(data) FROM operations WHERE id = $operation_id]; no output
    when no row has the id. *)
Definition get_operation_data (operation_id : Z) (ops : list operation)
    : option json_object :=
  option_map data (find (has_id operation_id) ops).

Definition get_operation_status (operation_id : Z) (ops : list operation)
    : option op_status :=
  option_map status (find (has_id operation_id) ops).

(** [check_operation_exists]: [SELECT COUNT( * )] of the rows with the id,
    compared with 1 by [[[ $count -eq 1 ]]]. *)
Definition check_operation_exists (operation_id : Z) (ops : list operation)
    : bool :=
  Z.of_nat (List.length (filter (has_id operation_id) ops)) =? 1.

(** ** orchestrator/status_monitor.sh: constants and statements *)

Definition MAX_OPERATION_TIME : Z := 3600.
Definition MAX_RETRIES : Z := 3.
Definition STUCK_THRESHOLD : Z := 1800.
Definition CHECK_INTERVAL : Z := 60.

(** The interval literals of the three queries, in seconds:
    ['-30 minutes'], ['-1 hour'] and ['-30 days']. *)
Definition stuck_age : Z := 30 * 60.
Definition timeout_age : Z := 60 * 60.
Definition archive_age : Z := 30 * 86400.

(** [WHERE status = 'processing' AND datetime('now', '-30 minutes') > started_at] *)
Definition is_stuck (now : Z) (r : operation) : bool :=
  status_eqb (status r) processing && older_than (now - stuck_age) (started_at r).

(** The rows [check_stuck_operations] selects (it reads [id] first on every
    output line). *)
Definition stuck_ops (now : Z) (ops : list operation) : list operation :=
  filter (is_stuck now) ops.

(** [SELECT retry_count FROM operations WHERE id = $op_id]: what the query
    prints, nothing when no row has the id. *)
Definition select_retry_count (op_id : Z) (ops : list operation) : option Z :=
  option_map retry_count (find (has_id op_id) ops).

(** [[[ $retries -lt $MAX_RETRIES ]]]: an empty [$retries] counts as 0. *)
Definition below_max_retries (retries : option Z) : bool :=
  match retries with
  | Some n => n <? MAX_RETRIES
  | None => 0 <? MAX_RETRIES
  end.

(** [SET status = 'pending', retry_count = retry_count + 1, error = note] *)
Definition reset_for_retry (note : string) (r : operation) : operation :=
  mkOperation (id r) (type r) (data r) pending (source r) (retry_count r + 1)
    (Some note) (result r) (created_at r) (started_at r) (completed_at r).

(** [SET status = 'failed', error = note] *)
Definition fail_exhausted (note : string) (r : operation) : operation :=
  mkOperation (id r) (type r) (data r) failed (source r) (retry_count r)
    (Some note) (result r) (created_at r) (started_at r) (completed_at r).

(** The texts stored in [error]; [$MAX_RETRIES] is expanded in two of them. *)
Definition stuck_retry_note : string := "Operation stuck - attempting retry".
Definition stuck_failed_note : string := "Operation failed after 3 retries".
Definition timeout_retry_note : string :=
  "Operation timed out - attempting retry".
Definition timeout_failed_note : string :=
  "Operation timed out after 3 retries".

(** [WHERE status = 'processing' AND datetime('now', '-1 hour') > started_at] *)
Definition is_timed_out (now : Z) (r : operation) : bool :=
  status_eqb (status r) processing
  && older_than (now - timeout_age) (started_at r).

Definition timed_out_ops (now : Z) (ops : list operation) : list operation :=
  filter (is_timed_out now) ops.

(** [WHERE status IN ('completed', 'failed') AND datetime('now', '-30 days') > completed_at] *)
Definition is_archivable (now : Z) (r : operation) : bool :=
  terminal (status r) && older_than (now - archive_age) (completed_at r).

(** ** orchestrator/operation_types.conf and the handler registry *)

(** The shipped file, one list element per line. *)
Definition operation_types_conf : list string :=
  [ "# Site Operations";
    "site.create=/home/clp/scripts/sites/manage_site.sh create";
    "site.delete=/home/clp/scripts/sites/manage_site.sh delete";
    "site.update=/home/clp/scripts/sites/manage_site.sh update";
    EmptyString;
    "# User Operations";
    "user.create=/home/clp/scripts/user/manage_user.sh create";
    "user.delete=/home/clp/scripts/user/manage_user.sh delete";
    "user.reset_password=/home/clp/scripts/user/manage_user.sh reset_password";
    EmptyString;
    "# Database Operations";
    "database.create=/home/clp/scripts/databases/manage_database.sh create";
    "database.delete=/home/clp/scripts/databases/manage_database.sh delete";
    "database.export=/home/clp/scripts/databases/manage_database.sh export";
    "database.import=/home/clp/scripts/databases/manage_database.sh import";
    "database.backup=/home/clp/scripts/databases/manage_database.sh backup";
    EmptyString;
    "# Certificate Operations";
    "certificate.lets_encrypt=/home/clp/scripts/certificates/manage_certificates.sh install_lets_encrypt";
    "certificate.custom=/home/clp/scripts/certificates/manage_certificates.sh install_custom";
    "certificate.renew=/home/clp/scripts/certificates/manage_certificates.sh renew_domain";
    "certificate.renew_all=/home/clp/scripts/certificates/manage_certificates.sh renew_all";
    EmptyString;
    "# Maintenance Operations";
    "maintenance.full=/home/clp/scripts/maintenance/system_maintenance.sh full";
    "maintenance.logs=/home/clp/scripts/maintenance/system_maintenance.sh logs";
    "maintenance.backups=/home/clp/scripts/maintenance/system_maintenance.sh backups";
    "maintenance.cleanup=/home/clp/scripts/maintenance/system_maintenance.sh cleanup";
    "maintenance.optimize=/home/clp/scripts/maintenance/system_maintenance.sh optimize";
    "maintenance.security=/home/clp/scripts/maintenance/system_maintenance.sh security";
    EmptyString;
    "# Monitoring Operations";
    "monitoring.collect=/home/clp/scripts/monitoring/system_monitor.sh collect";
    "monitoring.clean=/home/clp/scripts/monitoring/system_monitor.sh clean";
    "monitoring.services=/home/clp/scripts/monitoring/system_monitor.sh services" ].

(** The text before the first occurrence of a character and the text after
    it; [None] when the character does not occur. *)
Fixpoint split_first (c : ascii) (s : string) : option (string * string) :=
  match s with
  | EmptyString => None
  | String a rest =>
      if Ascii.eqb a c then Some (EmptyString, rest)
      else match split_first c rest with
           | Some (before, after) => Some (String a before, after)
           | None => None
           end
  end.

(** [IFS='=' read -r operation_type handler_script] on one line.  The first
    field goes to the first name.  The second name takes the rest of the
    line as it stands, except that a rest made of one field and its closing
    delimiter loses that delimiter. *)
Definition read_two_fields (line : string) : string * string :=
  match split_first "=" line with
  | None => (line, EmptyString)
  | Some (first, rest) =>
      match split_first "=" rest with
      | Some (field, EmptyString) => (first, field)
      | _ => (first, rest)
      end
  end.

(** The associative array [OPERATION_HANDLERS]. *)
Definition registry : Type := list (string * string).

(** [OPERATION_HANDLERS["$operation_type"]="$handler_script"] *)
Definition assign_handler (operation_type handler_script : string)
    (handlers : registry) : registry :=
  (operation_type, handler_script)
    :: filter (fun e => negb (fst e =? operation_type)%string) handlers.

(** [${OPERATION_HANDLERS[$operation_type]}]: the empty string for a key
    that was never assigned. *)
Definition lookup_handler (operation_type : string) (handlers : registry)
    : string :=
  match find (fun e => (fst e =? operation_type)%string) handlers with
  | Some e => snd e
  | None => EmptyString
  end.

(** The [while IFS='=' read ...; do ...; done < "$OPERATION_TYPES_FILE"] loop
    that fills the array.  Comment lines are assigned like any other line
    (the whole line is the key, the value is empty).  An empty key, which a
    blank line gives, is a bad array subscript: bash reports the failed
    assignment and abandons the whole [while] command, so no later line is
    read. *)
Fixpoint load_operation_handlers (lines : list string) (handlers : registry)
    : registry :=
  match lines with
  | [] => handlers
  | line :: rest =>
      let (operation_type, handler_script) := read_two_fields line in
      if (operation_type =? EmptyString)%string then handlers
      else load_operation_handlers rest
             (assign_handler operation_type handler_script handlers)
  end.

Definition OPERATION_HANDLERS : registry :=
  load_operation_handlers operation_types_conf [].

(** The operation types that have a mapping line in a configuration file. *)
Definition mapping_lines (lines : list string) : list (string * string) :=
  map read_two_fields
    (filter (fun l => match split_first "=" l with
                      | Some _ => true
                      | None => false
                      end) lines).

Fixpoint contains_char (c : ascii) (s : string) : bool :=
  match s with
  | EmptyString => false
  | String a rest => Ascii.eqb a c || contains_char c rest
  end.

(** A registered value of the form [path argument]. *)
Definition path_with_argument (value : string) : bool :=
  match split_first " " value with
  | Some (path, argument) =>
      negb (path =? EmptyString)%string && negb (argument =? EmptyString)%string
  | None => false
  end.

(** ** The registry file as text *)

(** The line feed. *)
Definition newline : ascii := "010"%char.

(** The lines that [read] returns with status 0: those that end with a line
    feed.  The loop body runs once for each of them.  What stands behind the
    last line feed is read into the variables as well, but [read] then
    reports the end of the file and the loop ends without another turn. *)
Fixpoint lines_from (line text : string) : list string :=
  match text with
  | EmptyString => []
  | String c rest =>
      if Ascii.eqb c newline then line :: lines_from EmptyString rest
      else lines_from (line ++ String c EmptyString) rest
  end.

Definition terminated_lines (text : string) : list string :=
  lines_from EmptyString text.

(** A file made of the given lines, each closed by a line feed. *)
Definition file_text (lines : list string) : string :=
  fold_right (fun l text => (l ++ String newline text)%string) EmptyString
    lines.

(** The loader loop run on a file with the given content. *)
Definition load_registry_file (text : string) (handlers : registry)
    : registry :=
  load_operation_handlers (terminated_lines text) handlers.

(** [done < "$OPERATION_TYPES_FILE"]: a file that cannot be opened gives the
    loop no turn. *)
Definition registry_lines (file : option string) : list string :=
  match file with
  | Some text => terminated_lines text
  | None => []
  end.

Definition empty_key (line : string) : bool :=
  (fst (read_two_fields line) =? EmptyString)%string.

(** The status of the loop command: 1 after a failed redirection or a failed
    assignment, 0 otherwise. *)
Definition load_status (file : option string) : Z :=
  match file with
  | None => 1
  | Some text => if existsb empty_key (terminated_lines text) then 1 else 0
  end.

(** ** Texts pasted into a statement *)

(** [update_operation_status] writes ['$error_message'] into its third
    statement and [store_operation_result] writes [json('$result')].  A text
    without a single quote is the SQL literal it is meant to be.  A text with
    one closes the literal early: the statement sent is another one, or none
    that parses, and [update_operation_status] above does not describe it.
    The text handed to [json()] is stored as a JSON value: a text that is
    not JSON is refused, and one that is JSON is stored without its
    insignificant white space; [store_operation_result] above stands for a
    text that [json()] gives back unchanged. *)
Definition sql_literal (text : string) : bool :=
  negb (contains_char "'" text).

(** ** What a handler process does to the table *)

(** A handler reaches the table through the writing functions of
    core/database.sh only. *)
Inductive db_call : Type :=
| UpdateStatus (operation_id : Z) (st : op_status) (error_message : string)
| StoreResult (operation_id : Z) (res : string).

Definition run_db_call (now : Z) (ops : list operation) (c : db_call)
    : list operation :=
  match c with
  | UpdateStatus operation_id st error_message =>
      update_operation_status operation_id st error_message now ops
  | StoreResult operation_id res => store_operation_result operation_id res ops
  end.

Definition run_db_calls (now : Z) (calls : list db_call)
    (ops : list operation) : list operation :=
  fold_left (run_db_call now) calls ops.

(** The status writes for which [update_operation_status] stands as it is
    modelled: the message is pasted in the [failed] branch only. *)
Definition literal_call (c : db_call) : bool :=
  match c with
  | UpdateStatus _ failed error_message => sql_literal error_message
  | UpdateStatus _ _ _ => true
  | StoreResult _ _ => false
  end.

(** One started handler process: script, first and second argument. *)
Definition invocation : Type := (string * string * Z)%type.

(** ** How bash runs the two daemons *)

(** The answer of the database to one statement: the reading of the clock
    that [datetime('now')] gives while the statement runs, or a refusal
    (the database is locked), after which [sqlite3] has printed nothing,
    has written nothing and ends with a status other than 0. *)
Inductive answer : Type :=
| answered (now : Z)
| refused (status : Z).

(** What a run of a daemon meets outside the two tables: the answer to its
    n-th statement, the exit status of the n-th call of [log_message] in a
    shell that knows a function of that name (such a function writes to log
    files and leaves the tables alone), and whether the n-th reading of
    [date +%H:%M] is [00:00]. *)
Record host : Type := mkHost {
  sqlite3 : nat -> answer;
  log_message : nat -> Z;
  midnight : nat -> bool
}.

(** The state a run works on: the tables, the number of statements sent, of
    logging calls made and of readings of [date] taken so far, and the
    handler processes started. *)
Record world : Type := mkWorld {
  tables : store;
  statements : nat;
  log_calls : nat;
  date_calls : nat;
  started : list invocation
}.

(** How a piece of a script ends: it returns to what follows it, or the
    shell exits with a status. *)
Inductive ended (A : Type) : Type :=
| Returned (a : A)
| Exited (status : Z).

Arguments Returned {A} a.
Arguments Exited {A} status.

Definition sh (A : Type) : Type := world -> ended A * world.

Definition ret {A : Type} (a : A) : sh A := fun w => (Returned a, w).

Definition bind {A B : Type} (m : sh A) (f : A -> sh B) : sh B :=
  fun w =>
    match m w with
    | (Returned a, w') => f a w'
    | (Exited status, w') => (Exited status, w')
    end.

Notation "x <- m ;; f" := (bind m (fun x => f))
  (at level 61, m at next level, right associativity).
Notation "m ;; f" := (bind m (fun _ => f))
  (at level 61, right associativity).

Definition exit_with {A : Type} (status : Z) : sh A :=
  fun w => (Exited status, w).

(** A simple command under [set -e]: a status other than 0 ends the shell. *)
Definition errexit (status : Z) : sh unit :=
  if status =? 0 then ret tt else exit_with status.

Definition read_tables : sh store := fun w => (Returned (tables w), w).

Definition write_tables (s : store) : sh unit :=
  fun w =>
    (Returned tt,
     mkWorld s (statements w) (log_calls w) (date_calls w) (started w)).

(** One statement handed to [sqlite3]. *)
Definition send_statement (h : host) : sh answer :=
  fun w =>
    (Returned (sqlite3 h (statements w)),
     mkWorld (tables w) (S (statements w)) (log_calls w) (date_calls w)
       (started w)).

(** [local rows=$(sqlite3 DB "SELECT ...")]: the status of the substitution
    is hidden behind [local]; a refused query leaves the variable empty and
    the function goes on. *)
Definition select_hidden {A : Type} (h : host)
    (query : Z -> list operation -> A) (empty : A) : sh A :=
  a <- send_statement h;;
  s <- read_tables;;
  ret (match a with
       | answered now => query now (operations s)
       | refused _ => empty
       end).

(** [sqlite3 DB "UPDATE operations SET ... WHERE ..."] as a command of its
    own: a refusal ends the shell under [set -e]. *)
Definition update_rows (h : host) (cond : operation -> bool)
    (set : operation -> operation) : sh unit :=
  a <- send_statement h;;
  match a with
  | answered _ =>
      s <- read_tables;;
      write_tables
        (mkStore (update_where cond set (operations s))
           (operations_archive s))
  | refused status => exit_with status
  end.

(** [$(date +%H:%M)] compared with [00:00]. *)
Definition read_date (h : host) : sh bool :=
  fun w =>
    (Returned (midnight h (date_calls w)),
     mkWorld (tables w) (statements w) (log_calls w) (S (date_calls w))
       (started w)).

(** Whether a name is a function of the shell. *)
Definition command_found (functions : list string) (name : string) : bool :=
  existsb (String.eqb name) functions.

(** The reserved words that open and close the compound commands of a
    function body, in the order in which the body has them. *)
Inductive word : Type :=
| w_brace_open
| w_brace_close
| w_if
| w_then
| w_elif
| w_else
| w_fi
| w_while
| w_for
| w_do
| w_done.

(** What the parser is inside of. *)
Inductive opened : Type :=
| in_braces
| after_if
| after_then
| after_else
| after_while
| after_do.

(** Whether the reserved words nest: each closing word closes the compound
    command that was opened last. *)
Fixpoint nests (stack : list opened) (words : list word) : bool :=
  match words with
  | [] =>
      match stack with
      | [] => true
      | _ :: _ => false
      end
  | w :: rest =>
      match w with
      | w_brace_open => nests (in_braces :: stack) rest
      | w_if => nests (after_if :: stack) rest
      | w_while | w_for => nests (after_while :: stack) rest
      | w_brace_close =>
          match stack with
          | in_braces :: below => nests below rest
          | _ => false
          end
      | w_then =>
          match stack with
          | after_if :: below => nests (after_then :: below) rest
          | _ => false
          end
      | w_elif =>
          match stack with
          | after_then :: below => nests (after_if :: below) rest
          | _ => false
          end
      | w_else =>
          match stack with
          | after_then :: below => nests (after_else :: below) rest
          | _ => false
          end
      | w_fi =>
          match stack with
          | after_then :: below | after_else :: below => nests below rest
          | _ => false
          end
      | w_do =>
          match stack with
          | after_while :: below => nests (after_do :: below) rest
          | _ => false
          end
      | w_done =>
          match stack with
          | after_do :: below => nests below rest
          | _ => false
          end
      end
  end.

Definition parses (words : list word) : bool := nests [] words.

(** The commands a script has at its top level.  [Plain] is an assignment,
    a [declare], a [trap] or an external program: nothing of what is
    modelled changes.  [Define] is a function definition, given by the
    reserved words of its body.  [Call] is a simple command that names a
    function, given with what the function does in a shell that knows the
    listed functions.  The functions the two daemons call at their top level
    are endless loops; their models are cut after some turns, and a loop
    that was cut without the shell having exited leaves the script
    running. *)
Inductive toplevel : Type :=
| Plain
| SetErrexit
| ReadRegistry
| Define (name : string) (words : list word)
| Call (name : string) (run : list string -> sh unit).

(** The shell: the functions defined so far, whether [set -e] is in force,
    the array [OPERATION_HANDLERS], the status of the last command, and the
    world outside. *)
Record shell : Type := mkShell {
  functions : list string;
  errexit_set : bool;
  array : registry;
  last_status : Z;
  outside : world
}.

Definition new_shell (w : world) : shell := mkShell [] false [] 0 w.

(** A script read and run command by command, with the registry file the
    loader loop opens ([None] when it cannot be opened).  The result is the
    shell as the script leaves it and the exit status, [None] standing for
    a script that is still running. *)
Fixpoint run_script (file : option string) (script : list toplevel)
    (s : shell) : shell * option Z :=
  match script with
  | [] => (s, Some (last_status s))
  | command :: rest =>
      match command with
      | Plain =>
          run_script file rest
            (mkShell (functions s) (errexit_set s) (array s) 0 (outside s))
      | SetErrexit =>
          run_script file rest
            (mkShell (functions s) true (array s) 0 (outside s))
      | ReadRegistry =>
          let loaded :=
            mkShell (functions s) (errexit_set s)
              (load_operation_handlers (registry_lines file) (array s))
              (load_status file) (outside s) in
          if errexit_set s && negb (load_status file =? 0)
          then (loaded, Some (load_status file))
          else run_script file rest loaded
      | Define name words =>
          if parses words then
            run_script file rest
              (mkShell (name :: functions s) (errexit_set s) (array s) 0
                 (outside s))
          else (s, Some 2)
      | Call name run =>
          if command_found (functions s) name then
            match run (functions s) (outside s) with
            | (Exited status, w) =>
                (mkShell (functions s) (errexit_set s) (array s) status w,
                 Some status)
            | (Returned _, w) =>
                (mkShell (functions s) (errexit_set s) (array s) 0 w, None)
            end
          else if errexit_set s then (s, Some 127)
          else
            run_script file rest
              (mkShell (functions s) (errexit_set s) (array s) 127
                 (outside s))
      end
  end.

(** core/database.sh and core/logging.sh as [source] runs them in the
    current shell: assignments, external programs and function
    definitions. *)
Definition database_sh : list toplevel :=
  [ Plain;
    Define "get_operation_data" [w_brace_open; w_brace_close];
    Define "update_operation_status"
      [w_brace_open; w_if; w_then; w_elif; w_then; w_elif; w_then; w_fi;
       w_brace_close];
    Define "store_operation_result" [w_brace_open; w_brace_close];
    Define "check_operation_exists" [w_brace_open; w_brace_close];
    Define "get_operation_status" [w_brace_open; w_brace_close] ].

Definition logging_sh : list toplevel :=
  [ Plain; Plain; Plain; Plain; Plain;
    Define "log" [w_brace_open; w_if; w_then; w_fi; w_brace_close];
    Define "log_debug" [w_brace_open; w_if; w_then; w_fi; w_brace_close];
    Define "log_info" [w_brace_open; w_if; w_then; w_fi; w_brace_close];
    Define "log_warning" [w_brace_open; w_if; w_then; w_fi; w_brace_close];
    Define "log_error" [w_brace_open; w_if; w_then; w_fi; w_brace_close];
    Define "log_critical" [w_brace_open; w_if; w_then; w_fi; w_brace_close];
    Define "set_log_level"
      [w_brace_open; w_if; w_then; w_else; w_fi; w_brace_close];
    Define "rotate_logs"
      [w_brace_open; w_for; w_do; w_if; w_then; w_fi; w_done; w_brace_close];
    Plain; Plain ].

(** ** orchestrator/queue_worker.sh *)

(** Insertion into a list sorted by [created_at], after the rows that are
    not younger. *)
Fixpoint insert_by_created_at (r : operation) (sorted : list operation)
    : list operation :=
  match sorted with
  | [] => [r]
  | x :: rest =>
      if created_at r <? created_at x then r :: sorted
      else x :: insert_by_created_at r rest
  end.

Definition order_by_created_at (rows : list operation) : list operation :=
  fold_left (fun sorted r => insert_by_created_at r sorted) rows [].

(** [SELECT id, type FROM operations WHERE status = 'pending' ORDER BY created_at ASC],
    the query in the text of [monitor_operations]. *)
Definition pending_ops (ops : list operation) : list operation :=
  order_by_created_at
    (filter (fun r => status_eqb (status r) pending) ops).

(** The reserved words of [process_operation]: the first [if] (line 170) is
    followed by a closing brace (line 174) where its [fi] belongs; then come
    the [if] of line 179 with the [if]/[else]/[fi] of lines 183 to 187
    inside, its [else] and [fi], and the closing brace of the function. *)
Definition process_operation_words : list word :=
  [ w_brace_open;
    w_if; w_then; w_brace_close;
    w_if; w_then;
    w_if; w_then; w_else; w_fi;
    w_else; w_fi;
    w_brace_close ].

Definition monitor_operations_words : list word :=
  [ w_brace_open;
    w_while; w_do;
    w_if; w_then; w_while; w_do; w_done; w_fi;
    w_done;
    w_brace_close ].

(** The script: the two [source] lines, the assignments of [MAIN_LOG] and
    [OPERATION_TYPES_FILE], [declare -A OPERATION_HANDLERS], the loader
    loop, the three function definitions and the call of
    [monitor_operations].  The script has no [set -e]. *)
Definition queue_worker_sh (monitor_operations : list string -> sh unit)
    : list toplevel :=
  database_sh ++ logging_sh
  ++ [ Plain; Plain; Plain;
       ReadRegistry;
       Define "log_message" [w_brace_open; w_brace_close];
       Define "process_operation" process_operation_words;
       Define "monitor_operations" monitor_operations_words;
       Call "monitor_operations" monitor_operations ].

(** One run of the script on a host, whatever [monitor_operations] would do
    once called. *)
Definition queue_worker (monitor_operations : list string -> sh unit)
    (file : option string) (w : world) : shell * option Z :=
  run_script file (queue_worker_sh monitor_operations) (new_shell w).

(** ** orchestrator/status_monitor.sh: the functions *)

(** [log_monitor]: its one command is [log_message "$message" "$MONITOR_LOG"].
    The name is looked up among the functions of the shell; the script runs
    under [set -e]. *)
Definition log_monitor (h : host) (functions : list string)
    (message : string) : sh unit :=
  fun w =>
    if command_found functions "log_message" then
      errexit (log_message h (log_calls w))
        (mkWorld (tables w) (statements w) (S (log_calls w)) (date_calls w)
           (started w))
    else (Exited 127, w).

(** The retry-or-fail decision shared by [handle_stuck_operation] and
    [handle_timeout]; the two differ in the texts they log and store. *)
Definition retry_or_fail (h : host) (functions : list string)
    (retry_note retry_message failed_note failed_message : string)
    (op_id : Z) : sh unit :=
  retries <-
    select_hidden h (fun _ ops => select_retry_count op_id ops) None;;
  if below_max_retries retries then
    update_rows h (has_id op_id) (reset_for_retry retry_note);;
    log_monitor h functions retry_message
  else
    update_rows h (has_id op_id) (fail_exhausted failed_note);;
    log_monitor h functions failed_message.

Definition handle_stuck_operation (h : host) (functions : list string)
    (op_id : Z) : sh unit :=
  log_monitor h functions "Handling stuck operation";;
  retry_or_fail h functions
    stuck_retry_note "Reset stuck operation for retry"
    stuck_failed_note "Operation failed after maximum retries" op_id.

Definition handle_timeout (h : host) (functions : list string) (op_id : Z)
    : sh unit :=
  log_monitor h functions "Handling timeout for operation";;
  retry_or_fail h functions
    timeout_retry_note "Reset timed out operation for retry"
    timeout_failed_note "Operation failed after timeout and maximum retries"
    op_id.

(** The [while read] loop over the lines of a query result: the handler is
    called once per selected row, in order, on the tables as they then
    are.  The commands of the handlers take their statement as an argument
    and leave the lines of the loop alone.  The rows are those the query
    selected when every line of its output is one row
    ([one_line_per_row]). *)
Fixpoint for_each_id (handle : Z -> sh unit) (selected : list operation)
    : sh unit :=
  match selected with
  | [] => ret tt
  | r :: rest => handle (id r);; for_each_id handle rest
  end.

Definition check_stuck_operations (h : host) (functions : list string)
    : sh unit :=
  log_monitor h functions "Checking for stuck operations";;
  selected <- select_hidden h stuck_ops [];;
  for_each_id (handle_stuck_operation h functions) selected.

Definition check_timed_out_operations (h : host) (functions : list string)
    : sh unit :=
  log_monitor h functions "Checking for timed out operations";;
  selected <- select_hidden h timed_out_ops [];;
  for_each_id (handle_timeout h functions) selected.

(** [cleanup_old_operations]: one [sqlite3] command with two statements,
    [INSERT INTO operations_archive SELECT ...] and [DELETE] with the same
    WHERE clause.  Each statement reads the clock for itself, and a refused
    statement ends the command before the next one.  The archive is taken
    to accept every row it is given. *)
Definition cleanup_old_operations (h : host) (functions : list string)
    : sh unit :=
  log_monitor h functions "Cleaning up old operations";;
  inserted <- send_statement h;;
  match inserted with
  | refused status => exit_with status
  | answered insert_now =>
      s <- read_tables;;
      write_tables
        (mkStore (operations s)
           (operations_archive s
            ++ filter (is_archivable insert_now) (operations s)));;
      deleted <- send_statement h;;
      match deleted with
      | refused status => exit_with status
      | answered delete_now =>
          s' <- read_tables;;
          write_tables
            (mkStore
               (filter (fun r => negb (is_archivable delete_now r))
                  (operations s'))
               (operations_archive s'))
      end
  end.

(** [generate_status_report]: one query, read only and hidden behind
    [local], whose output goes to the log. *)
Definition generate_status_report (h : host) (functions : list string)
    : sh unit :=
  log_monitor h functions "Generating status report";;
  _ <- send_statement h;;
  log_monitor h functions "Daily Status Report:";;
  log_monitor h functions "$stats".

(** One turn of the [while true] loop of [monitor_status], up to the
    [sleep]. *)
Definition monitor_status_cycle (h : host) (functions : list string)
    : sh unit :=
  check_stuck_operations h functions;;
  check_timed_out_operations h functions;;
  at_midnight <- read_date h;;
  if at_midnight then
    generate_status_report h functions;;
    cleanup_old_operations h functions
  else ret tt.

Fixpoint monitor_status_loop (h : host) (functions : list string)
    (cycles : nat) : sh unit :=
  match cycles with
  | O => ret tt
  | S more =>
      monitor_status_cycle h functions;;
      monitor_status_loop h functions more
  end.

(** [monitor_status], its loop cut after the given number of turns. *)
Definition monitor_status (h : host) (functions : list string)
    (cycles : nat) : sh unit :=
  log_monitor h functions "Starting operation status monitor";;
  monitor_status_loop h functions cycles.

(** The script: the two [source] lines, five assignments, [set -e], the
    [trap], the function definitions and the call of [monitor_status]. *)
Definition status_monitor_sh (run : list string -> sh unit) : list toplevel :=
  database_sh ++ logging_sh
  ++ [ Plain; Plain; Plain; Plain; Plain;
       SetErrexit;
       Plain;
       Define "handle_error" [w_brace_open; w_brace_close];
       Define "log_monitor" [w_brace_open; w_brace_close];
       Define "check_stuck_operations"
         [w_brace_open; w_if; w_then; w_while; w_do; w_done; w_fi;
          w_brace_close];
       Define "handle_stuck_operation"
         [w_brace_open; w_if; w_then; w_else; w_fi; w_brace_close];
       Define "check_timed_out_operations"
         [w_brace_open; w_if; w_then; w_while; w_do; w_done; w_fi;
          w_brace_close];
       Define "handle_timeout"
         [w_brace_open; w_if; w_then; w_else; w_fi; w_brace_close];
       Define "cleanup_old_operations" [w_brace_open; w_brace_close];
       Define "generate_status_report" [w_brace_open; w_brace_close];
       Define "monitor_status"
         [w_brace_open; w_while; w_do; w_if; w_then; w_fi; w_done;
          w_brace_close];
       Call "monitor_status" run ].

(** One run of the script on a host, followed for the given number of turns
    of the loop. *)
Definition status_monitor (h : host) (cycles : nat) (w : world)
    : shell * option Z :=
  run_script None
    (status_monitor_sh (fun functions => monitor_status h functions cycles))
    (new_shell w).

(** ** The handler scripts *)

(** A handler script, as the text of [process_operation] starts it: run as
    [script operation_type operation_id] on the table as it is, it issues
    some database calls and exits with a status. *)
Definition handler_behaviour : Type :=
  string -> string -> Z -> list operation -> list db_call * Z.

(** ** sites/manage_site.sh *)

(** [jq -r '.field'] on the output of [get_operation_data]: the string
    value of the field, the word [null] when the object lacks it, and no
    output at all when there is no document. *)
Definition jq_r (field : string) (doc : option json_object) : string :=
  match doc with
  | None => EmptyString
  | Some o =>
      match find (fun kv => (fst kv =? field)%string) o with
      | Some kv => snd kv
      | None => "null"
      end
  end.

(** [validate_site_data]: [true] stands for return status 0. *)
Definition validate_site_data (site_data : option json_object)
    (site_type : string) : bool :=
  if (jq_r "domain_name" site_data =? "null")%string then false
  else if (site_type =? "php")%string then
    negb (jq_r "php_version" site_data =? "null")%string
  else if (site_type =? "nodejs")%string then
    negb (jq_r "app_port" site_data =? "null")%string
  else if (site_type =? "python")%string then
    negb (jq_r "app_port" site_data =? "null")%string
  else if (site_type =? "reverse-proxy")%string then
    negb (jq_r "reverse_proxy_url" site_data =? "null")%string
  else true.

Section ManageSite.

(** The exit status of one of the functions that wrap a [clpctl] call
    ([create_php_site], ..., [delete_site]), given its name and the
    operation data.  The script runs under [set -e] and those functions are
    called from [main], where the ERR trap is not inherited: a failing
    command ends the process with its status and nothing else runs. *)
Variable site_action : string -> option json_object -> Z.

(** The two calls around a [clpctl] wrapper. *)
Definition run_site_action (name : string) (site_data : option json_object)
    (OPERATION_ID : Z) : list db_call * Z :=
  let exit_status := site_action name site_data in
  if exit_status =? 0 then
    ([UpdateStatus OPERATION_ID processing EmptyString;
      UpdateStatus OPERATION_ID completed EmptyString], 0)
  else ([UpdateStatus OPERATION_ID processing EmptyString], exit_status).

(** [main "$@"]: [$1] is the operation (here [operation_arg]) and [$2] the
    operation id. *)
Definition manage_site_main (operation_arg : string) (OPERATION_ID : Z)
    (ops : list operation) : list db_call * Z :=
  let site_data := get_operation_data OPERATION_ID ops in
  let site_type := jq_r "type" site_data in
  if negb (validate_site_data site_data site_type) then ([], 1)
  else if (operation_arg =? "create")%string then
    if (site_type =? "php")%string then
      run_site_action "create_php_site" site_data OPERATION_ID
    else if (site_type =? "nodejs")%string then
      run_site_action "create_nodejs_site" site_data OPERATION_ID
    else if (site_type =? "python")%string then
      run_site_action "create_python_site" site_data OPERATION_ID
    else if (site_type =? "static")%string then
      run_site_action "create_static_site" site_data OPERATION_ID
    else if (site_type =? "reverse-proxy")%string then
      run_site_action "create_reverse_proxy" site_data OPERATION_ID
    else ([UpdateStatus OPERATION_ID processing EmptyString], 1)
  else if (operation_arg =? "delete")%string then
    run_site_action "delete_site" site_data OPERATION_ID
  else ([UpdateStatus OPERATION_ID processing EmptyString], 1).

(** The script started with the operation type as first argument and the
    operation id as second, the way the text of [process_operation] passes
    them. *)
Definition manage_site : handler_behaviour :=
  fun _ operation_type operation_id ops =>
    manage_site_main operation_type operation_id ops.

End ManageSite.

(** ** The source gate of the design note *)

(** [should_handle_operation], as the design note of the repository writes
    it for core/database.sh: it reads the [source] of the row and succeeds
    for [api] only.  The shipped core/database.sh does not contain it and no
    script calls it. *)
Definition should_handle_operation (operation_id : Z) (ops : list operation)
    : bool :=
  match find (has_id operation_id) ops with
  | Some r => source_eqb (source r) api
  | None => false
  end.

(** ** The producer *)

(** Modelled from the spec: the default of the [retry_count] column, which
    sql/schema.sql declares and which is not among the sources.  The design
    has [retry_count] start at 0. *)
Definition retry_count_default : Z := 0.

(** [INSERT INTO operations (type, data, status, source, created_at)
    VALUES (..., 'pending', <source>, datetime('now'))].  The store assigns
    the id, given here as [new_id].  The columns the statement does not name
    take their defaults: NULL for the nullable ones, [retry_count_default]
    for [retry_count]. *)
Definition insert_operation (new_id : Z) (ty : string) (payload : json_object)
    (src : op_source) (now : Z) (ops : list operation) : list operation :=
  ops ++ [mkOperation new_id ty payload pending src retry_count_default
            None None now None None].

(** [create_operation type data]: the insertion of the API side. *)
Definition create_operation (new_id : Z) (ty : string) (payload : json_object)
    (now : Z) (ops : list operation) : list operation :=
  insert_operation new_id ty payload api now ops.

(** ** The store contract, in the words of the design *)

(** [claim(id)]: compare-and-set on [status = 'pending']; the answer tells
    whether a row changed. *)
Definition claim_as_specified (operation_id : Z) (now : Z)
    (ops : list operation) : list operation * bool :=
  let claimable r := has_id operation_id r && status_eqb (status r) pending in
  (update_where claimable (set_processing now) ops, existsb claimable ops).

(** ** user/manage_user.sh *)

(** One external command line: the program's arguments. *)
Definition command : Type := list string.

(** What one run of a handler script does: the external commands it
    starts, in order, its database calls, and its exit status. *)
Record handler_run : Type := mkRun {
  commands : list command;
  calls : list db_call;
  exit_status : Z
}.

(** The bracket expression [[a-zA-Z0-9._-]], in the C locale. *)
Definition username_char (c : ascii) : bool :=
  let n := nat_of_ascii c in
  ((97 <=? n) && (n <=? 122))%nat
  || ((65 <=? n) && (n <=? 90))%nat
  || ((48 <=? n) && (n <=? 57))%nat
  || Ascii.eqb c "." || Ascii.eqb c "_" || Ascii.eqb c "-".

Fixpoint all_chars (p : ascii -> bool) (s : string) : bool :=
  match s with
  | EmptyString => true
  | String c rest => p c && all_chars p rest
  end.

(** [validate_username]: the test [[[ $username =~ ^[a-zA-Z0-9._-]+$ ]]];
    [true] stands for return status 0. *)
Definition validate_username (username : string) : bool :=
  negb (username =? EmptyString)%string && all_chars username_char username.

Section ManageUser.

(** The exit status of a [clpctl] invocation. *)
Variable clpctl : command -> Z.
(** Whether [clpctl user:list | grep -q "$username"] finds a line. *)
Variable user_listed : string -> bool.

(** [create_user].  [jq] succeeds on every document, so the alternatives
    [echo 'UTC'] and [echo '1'] behind it never run.  A failing [clpctl]
    ends the process under [set -e]; the ERR trap is not inherited by the
    function. *)
Definition create_user (operation_id : Z) (ops : list operation)
    : handler_run :=
  let user_data := get_operation_data operation_id ops in
  let username := jq_r "user_name" user_data in
  if negb (validate_username username) then mkRun [] [] 1
  else
    let add : command :=
      [ "user:add";
        "--userName=" ++ username;
        "--email=" ++ jq_r "email" user_data;
        "--firstName=" ++ jq_r "first_name" user_data;
        "--lastName=" ++ jq_r "last_name" user_data;
        "--password=" ++ jq_r "password" user_data;
        "--role=" ++ jq_r "role" user_data;
        "--timezone=" ++ jq_r "timezone" user_data;
        "--status=" ++ jq_r "status" user_data ]%string in
    if clpctl add =? 0 then
      mkRun [add] [UpdateStatus operation_id completed EmptyString] 0
    else mkRun [add] [] (clpctl add).

(** [delete_user] *)
Definition delete_user (operation_id : Z) (ops : list operation)
    : handler_run :=
  let user_data := get_operation_data operation_id ops in
  let username := jq_r "user_name" user_data in
  if negb (validate_username username) then mkRun [] [] 1
  else if negb (user_listed username) then
    mkRun [["user:list"]]
      [UpdateStatus operation_id completed "User does not exist"] 0
  else
    let delete : command := ["user:delete"; ("--userName=" ++ username)%string] in
    if clpctl delete =? 0 then
      mkRun [["user:list"]; delete]
        [UpdateStatus operation_id completed EmptyString] 0
    else mkRun [["user:list"]; delete] [] (clpctl delete).

(** [reset_password] *)
Definition reset_password (operation_id : Z) (ops : list operation)
    : handler_run :=
  let user_data := get_operation_data operation_id ops in
  let username := jq_r "user_name" user_data in
  if negb (validate_username username) then mkRun [] [] 1
  else
    let reset : command :=
      [ "user:reset:password";
        "--userName=" ++ username;
        "--password=" ++ jq_r "new_password" user_data ]%string in
    if clpctl reset =? 0 then
      mkRun [reset] [UpdateStatus operation_id completed EmptyString] 0
    else mkRun [reset] [] (clpctl reset).

(** The [case "$1"] at the end of the script. *)
Definition manage_user_main (operation_arg : string) (operation_id : Z)
    (ops : list operation) : handler_run :=
  if (operation_arg =? "create")%string then create_user operation_id ops
  else if (operation_arg =? "delete")%string then delete_user operation_id ops
  else if (operation_arg =? "reset_password")%string then
    reset_password operation_id ops
  else mkRun [] [] 1.

(** The script started with the operation type as first argument. *)
Definition manage_user : handler_behaviour :=
  fun _ operation_type operation_id ops =>
    let run := manage_user_main operation_type operation_id ops in
    (calls run, exit_status run).

End ManageUser.

(** ** What the steps keep of a row *)

(** The row a database call is addressed to. *)
Definition call_target (c : db_call) : Z :=
  match c with
  | UpdateStatus operation_id _ _ => operation_id
  | StoreResult operation_id _ => operation_id
  end.

(** A later state of the same row: what the producer wrote is as it was, a
    column that held a value still holds one, and [retry_count] has not
    gone down. *)
Definition evolves (r r' : operation) : Prop :=
  id r' = id r /\ type r' = type r /\ data r' = data r
  /\ source r' = source r /\ created_at r' = created_at r
  /\ (error r <> None -> error r' <> None)
  /\ (result r <> None -> result r' <> None)
  /\ (started_at r <> None -> started_at r' <> None)
  /\ (completed_at r <> None -> completed_at r' <> None)
  /\ retry_count r <= retry_count r'.

(** What holds of a row once it is in the archive. *)
Definition archived_row (q : operation) : Prop :=
  terminal (status q) = true /\ completed_at q <> None.

(** [clpctl] succeeding every time, and a panel that lists every user. *)
Definition clpctl_always : command -> Z := fun _ => 0.
Definition every_user_listed : string -> bool := fun _ => true.

(** The functions a shell knows after the two [source] lines. *)
Definition sourced_functions : list string :=
  [ "rotate_logs"; "set_log_level"; "log_critical"; "log_error";
    "log_warning"; "log_info"; "log_debug"; "log";
    "get_operation_status"; "check_operation_exists";
    "store_operation_result"; "update_operation_status";
    "get_operation_data" ].

(** The world a script starts in. *)
Definition start_world (s : store) : world := mkWorld s 0 0 0 [].

(** The tables a run of a script leaves behind. *)
Definition tables_after (run : shell * option Z) : store :=
  tables (outside (fst run)).

(** A piece of a script keeps a property of the tables when the property
    holds of the tables it leaves whenever it held of the tables it found,
    however the piece ends. *)
Definition keeps (T : store -> Prop) {A : Type} (m : sh A) : Prop :=
  forall w, T (tables w) -> T (tables (snd (m w))).

(** A query prints one row per line and the loops of the watchdog read the
    output back line by line, the id first.  That gives the selected rows
    for a table whose operation types hold no line feed. *)
Definition one_line_per_row (ops : list operation) : Prop :=
  Forall (fun q => contains_char newline (type q) = false) ops.

(** A row that no statement of a run on the host can select: at every
    clock reading the database gives, the row is neither stuck nor old
    enough for the archive. *)
Definition never_selected (h : host) (r : operation) : Prop :=
  forall n now,
    sqlite3 h n = answered now ->
    is_stuck now r = false /\ is_archivable now r = false.

(** The archive of the second store is the archive of the first with
    finished rows added at its end. *)
Definition archive_grown (s s' : store) : Prop :=
  exists added,
    operations_archive s' = operations_archive s ++ added
    /\ Forall archived_row added.

(** What the watchdog keeps true of a row it does not select: the ids of
    the live table are unique, the row is in the live table, and the row is
    in the archive only if it was there before. *)
Definition left_alone (r : operation) (before : Prop) (s : store) : Prop :=
  ids_unique (operations s)
  /\ In r (operations s)
  /\ (In r (operations_archive s) -> before).

(** ** The subsystem as a transition system *)

(** The database calls of one handler run, each made at a clock reading of
    its own: the n-th call of the run at [clock n]. *)
Fixpoint run_db_calls_from (clock : nat -> Z) (n : nat)
    (requests : list db_call) (ops : list operation) : list operation :=
  match requests with
  | [] => ops
  | c :: rest =>
      run_db_calls_from clock (S n) rest (run_db_call (clock n) ops c)
  end.

(** What can happen to the two tables: the producer inserts a row; one of
    the two handlers runs; a process that sources core/database.sh writes a
    status; the dispatcher script runs; the watchdog script runs. *)
Inductive event : Type :=
| Enqueue (new_id : Z) (ty : string) (payload : json_object)
    (src : op_source) (now : Z)
| SiteHandlerRun (site_action : string -> option json_object -> Z)
    (operation_arg : string) (OPERATION_ID : Z) (clock : nat -> Z)
| UserHandlerRun (clpctl : command -> Z) (user_listed : string -> bool)
    (operation_arg : string) (operation_id : Z) (clock : nat -> Z)
| StatusWrite (operation_id : Z) (st : op_status) (error_message : string)
    (now : Z)
| DispatcherRun (monitor_operations : list string -> sh unit)
    (file : option string)
| WatchdogRun (h : host) (cycles : nat).

(** The clock readings at which an event writes. *)
Definition written_at (e : event) (t : Z) : Prop :=
  match e with
  | Enqueue _ _ _ _ now => t = now
  | SiteHandlerRun _ _ _ clock => exists n, t = clock n
  | UserHandlerRun _ _ _ _ clock => exists n, t = clock n
  | StatusWrite _ _ _ now => t = now
  | DispatcherRun _ _ => False
  | WatchdogRun _ _ => False
  end.

(** The store hands out an id that no live row carries. *)
Definition fresh_id (new_id : Z) (ops : list operation) : bool :=
  negb (existsb (has_id new_id) ops).

(** One event.  There is no next store for an insertion under an id in use,
    nor for a status write whose message is not a literal. *)
Definition apply_event (e : event) (s : store) : option store :=
  match e with
  | Enqueue new_id ty payload src now =>
      if fresh_id new_id (operations s) then
        Some (mkStore
                (insert_operation new_id ty payload src now (operations s))
                (operations_archive s))
      else None
  | SiteHandlerRun site_action operation_arg OPERATION_ID clock =>
      Some (mkStore
              (run_db_calls_from clock 0
                 (fst (manage_site_main site_action operation_arg
                         OPERATION_ID (operations s)))
                 (operations s))
              (operations_archive s))
  | UserHandlerRun clpctl user_listed operation_arg operation_id clock =>
      Some (mkStore
              (run_db_calls_from clock 0
                 (calls (manage_user_main clpctl user_listed operation_arg
                           operation_id (operations s)))
                 (operations s))
              (operations_archive s))
  | StatusWrite operation_id st error_message now =>
      if literal_call (UpdateStatus operation_id st error_message) then
        Some (mkStore
                (update_operation_status operation_id st error_message now
                   (operations s))
                (operations_archive s))
      else None
  | DispatcherRun monitor_operations file =>
      Some (tables_after (queue_worker monitor_operations file (start_world s)))
  | WatchdogRun h cycles =>
      Some (tables_after (status_monitor h cycles (start_world s)))
  end.



(** ** Sample rows and hosts *)

Definition static_site : json_object :=
  [("domain_name", "example.com"); ("type", "static")].

Definition sample_row (row_id : Z) (ty : string) (st : op_status)
    (src : op_source) (retries : Z) (started completed : option Z)
    : operation :=
  mkOperation row_id ty static_site st src retries None None 100 started
    completed.

(** [clpctl] succeeding every time. *)
Definition clpctl_ok : string -> option json_object -> Z := fun _ _ => 0.

(** A row that has been [processing] since time 0. *)
Definition stalled_row : operation :=
  sample_row 1 "site.create" processing api 0 (Some 0) None.

(** A row that completed at time 20, and one that is still waiting. *)
Definition finished_row : operation :=
  sample_row 2 "site.delete" completed api 0 (Some 10) (Some 20).

Definition waiting_row : operation :=
  sample_row 3 "site.create" pending api 0 None None.

(** Two rows of the panel's own path ([source = 'ui']): one waiting, one
    [processing] since time 0. *)
Definition ui_waiting_row : operation :=
  sample_row 5 "site.create" pending ui 0 None None.

Definition ui_stalled_row : operation :=
  sample_row 6 "site.create" processing ui 0 (Some 0) None.

(** A waiting API row of a type from the second group of the shipped file. *)
Definition user_row : operation :=
  sample_row 4 "user.create" pending api 0 None None.

(** A host on which the database answers every statement at the given
    time, every logging call succeeds, and it is midnight all day. *)
Definition calm_host (now : Z) : host :=
  mkHost (fun _ => answered now) (fun _ => 0) (fun _ => true).


(** A handler whose first write is made at time 500 and each further one
    a minute after the one before. *)
Definition handler_clock (n : nat) : Z := 500 + 60 * Z.of_nat n.

(** ** core/logging.sh *)

Inductive log_level : Type :=
| DEBUG
| INFO
| WARNING
| ERROR
| CRITICAL.

(** The associative array [LOG_LEVELS]. *)
Definition LOG_LEVELS (level : log_level) : Z :=
  match level with
  | DEBUG => 0
  | INFO => 1
  | WARNING => 2
  | ERROR => 3
  | CRITICAL => 4
  end.

Definition level_name (level : log_level) : string :=
  match level with
  | DEBUG => "DEBUG"
  | INFO => "INFO"
  | WARNING => "WARNING"
  | ERROR => "ERROR"
  | CRITICAL => "CRITICAL"
  end.

(** [${LOG_LEVELS[$level]}] for a name: no value for a name that is not a
    key of the array. *)
Definition level_of_name (name : string) : option log_level :=
  if (name =? "DEBUG")%string then Some DEBUG
  else if (name =? "INFO")%string then Some INFO
  else if (name =? "WARNING")%string then Some WARNING
  else if (name =? "ERROR")%string then Some ERROR
  else if (name =? "CRITICAL")%string then Some CRITICAL
  else None.

(** One line of a log file.  The line also carries the time and the script
    name and line number of the caller, which depend on the clock and on the
    call stack and are left out. *)
Record log_line : Type := mkLine {
  line_level : log_level;
  line_message : string
}.

(** The two files [$DEBUG_LOG] and [$ERROR_LOG], the system log that
    [logger] writes to, and the variable [CURRENT_LOG_LEVEL]. *)
Record logging : Type := mkLogging {
  CURRENT_LOG_LEVEL : Z;
  debug_log : list log_line;
  error_log : list log_line;
  system_log : list string
}.

Inductive log_file : Type :=
| DEBUG_LOG
| ERROR_LOG.

(** The state after the file has been sourced:
    [CURRENT_LOG_LEVEL=${LOG_LEVELS["INFO"]}]. *)
Definition logging_start : logging := mkLogging (LOG_LEVELS INFO) [] [] [].

Definition severe (level : log_level) : bool :=
  match level with
  | ERROR | CRITICAL => true
  | _ => false
  end.

(** What [logger -t "cloudpanel-scripts" "$level: $message"] records. *)
Definition system_log_text (l : log_line) : string :=
  (level_name (line_level l) ++ ": " ++ line_message l)%string.

(** [log level message log_file] *)
Definition log (level : log_level) (message : string) (file : log_file)
    (s : logging) : logging :=
  let line := mkLine level message in
  let written :=
    match file with
    | DEBUG_LOG =>
        mkLogging (CURRENT_LOG_LEVEL s) (debug_log s ++ [line]) (error_log s)
          (system_log s)
    | ERROR_LOG =>
        mkLogging (CURRENT_LOG_LEVEL s) (debug_log s) (error_log s ++ [line])
          (system_log s)
    end in
  if severe level then
    mkLogging (CURRENT_LOG_LEVEL written) (debug_log written)
      (error_log written) (system_log written ++ [system_log_text line])
  else written.

(** [log_debug], ..., [log_critical]: the test
    [[[ ${LOG_LEVELS[...]} -ge $CURRENT_LOG_LEVEL ]]] and the file each
    level goes to. *)
Definition log_at (level : log_level) (message : string) (s : logging)
    : logging :=
  if LOG_LEVELS level >=? CURRENT_LOG_LEVEL s then
    log level message
      (match level with
       | DEBUG | INFO => DEBUG_LOG
       | _ => ERROR_LOG
       end) s
  else s.

Definition log_debug : string -> logging -> logging := log_at DEBUG.
Definition log_info : string -> logging -> logging := log_at INFO.
Definition log_warning : string -> logging -> logging := log_at WARNING.
Definition log_error : string -> logging -> logging := log_at ERROR.
Definition log_critical : string -> logging -> logging := log_at CRITICAL.

(** [set_log_level level] *)
Definition set_log_level (name : string) (s : logging) : logging :=
  match level_of_name name with
  | Some level =>
      log_info ("Log level set to " ++ name)
        (mkLogging (LOG_LEVELS level) (debug_log s) (error_log s)
           (system_log s))
  | None => log_error ("Invalid log level: " ++ name) s
  end.

(** The calls a script can make into the file. *)
Inductive log_call : Type :=
| LogAt (level : log_level) (message : string)
| SetLogLevel (name : string).

Definition run_log_call (s : logging) (c : log_call) : logging :=
  match c with
  | LogAt level message => log_at level message s
  | SetLogLevel name => set_log_level name s
  end.

Definition run_log_calls (requests : list log_call) (s : logging) : logging :=
  fold_left run_log_call requests s.

(** What the functions keep true of the three logs. *)
Definition logs_consistent (s : logging) : Prop :=
  Forall (fun l => severe (line_level l) = false
                   /\ LOG_LEVELS (line_level l) <= LOG_LEVELS INFO)
    (debug_log s)
  /\ Forall (fun l => LOG_LEVELS WARNING <= LOG_LEVELS (line_level l))
       (error_log s)
  /\ system_log s
     = map system_log_text
         (filter (fun l => severe (line_level l)) (error_log s)).

(** ** install.sh, the permissions *)

Definition INSTALL_DIR : string := "/home/clp".

(** A file or directory of the host: its absolute path, its kind and its
    permission bits. *)
Record file_entry : Type := mkFile {
  file_path : string;
  is_directory : bool;
  mode : Z
}.

(** The octal modes 750 and 640, and the three execute bits 111. *)
Definition mode_750 : Z := 488.
Definition mode_640 : Z := 416.
Definition execute_bits : Z := 73.

Definition has_execute_bit (m : Z) : bool :=
  negb (Z.land m execute_bits =? 0).

(** What is left of a string behind a prefix. *)
Fixpoint strip_prefix (prefix s : string) : option string :=
  match prefix, s with
  | EmptyString, _ => Some s
  | String a prefix', String b s' =>
      if Ascii.eqb a b then strip_prefix prefix' s' else None
  | String _ _, EmptyString => None
  end.

Fixpoint ends_with (suffix s : string) : bool :=
  (s =? suffix)%string
  || match s with
     | EmptyString => false
     | String _ rest => ends_with suffix rest
     end.

(** A path at or below a directory. *)
Definition under (dir path : string) : bool :=
  (path =? dir)%string
  || match strip_prefix (dir ++ "/") path with
     | Some _ => true
     | None => false
     end.

(** A name that the pattern [*] matches as one path component: not empty,
    no slash, and no leading dot. *)
Definition star_matches (name : string) : bool :=
  match name with
  | EmptyString => false
  | String c _ => negb (Ascii.eqb c ".") && negb (contains_char "/" name)
  end.

(** The pattern ["${INSTALL_DIR}/scripts/"*/*.sh] *)
Definition scripts_pattern (path : string) : bool :=
  match strip_prefix (INSTALL_DIR ++ "/scripts/") path with
  | Some below =>
      match split_first "/" below with
      | Some (directory, name) =>
          star_matches directory && star_matches name && ends_with ".sh" name
      | None => false
      end
  | None => false
  end.

(** The pattern ["${INSTALL_DIR}/config/"*] *)
Definition config_pattern (path : string) : bool :=
  match strip_prefix (INSTALL_DIR ++ "/config/") path with
  | Some name => star_matches name
  | None => false
  end.

Definition with_mode (m : Z) (f : file_entry) : file_entry :=
  mkFile (file_path f) (is_directory f) m.

(** [chmod mode dir -R] *)
Definition chmod_recursive (m : Z) (dir : string) (fs : list file_entry)
    : list file_entry :=
  map (fun f => if under dir (file_path f) then with_mode m f else f) fs.

(** [chmod mode pattern]: the mode is given to every existing path the
    pattern expands to; a pattern that matches nothing is passed on as it is
    written, names no file, and changes nothing. *)
Definition chmod_pattern (m : Z) (pattern : string -> bool)
    (fs : list file_entry) : list file_entry :=
  map (fun f => if pattern (file_path f) then with_mode m f else f) fs.

(** The four [chmod] lines of the section "Set permissions", in order. *)
Definition set_permissions (fs : list file_entry) : list file_entry :=
  chmod_pattern mode_640 config_pattern
    (chmod_recursive mode_750 (INSTALL_DIR ++ "/logs")
       (chmod_pattern mode_640 scripts_pattern
          (chmod_recursive mode_750 (INSTALL_DIR ++ "/scripts") fs))).

(** A host right after the copy, before the permissions are set. *)
Definition copied_files : list file_entry :=
  [ mkFile "/home/clp/scripts" true 493;
    mkFile "/home/clp/scripts/sites" true 493;
    mkFile "/home/clp/scripts/sites/manage_site.sh" false 493;
    mkFile "/home/clp/scripts/user" true 493;
    mkFile "/home/clp/scripts/user/manage_user.sh" false 493;
    mkFile "/home/clp/scripts/orchestrator" true 493;
    mkFile "/home/clp/scripts/orchestrator/queue_worker.sh" false 493;
    mkFile "/home/clp/scripts/orchestrator/operation_types.conf" false 420;
    mkFile "/home/clp/logs" true 493;
    mkFile "/home/clp/config" true 493;
    mkFile "/home/clp/config/thresholds.conf" false 420 ].

(** * Properties *)

(** ** Rows and their ids *)

Lemma has_id_true (operation_id : Z) (r : operation) :
  has_id operation_id r = true <-> id r = operation_id.
Proof. unfold has_id. apply Z.eqb_eq. Qed.

Lemma has_id_false (operation_id : Z) (r : operation) :
  has_id operation_id r = false <-> id r <> operation_id.
Proof. unfold has_id. apply Z.eqb_neq. Qed.

Lemma same_id_same_row (ops : list operation) (r q : operation) :
  ids_unique ops -> In r ops -> In q ops -> id q = id r -> q = r.
Proof.
  unfold ids_unique. induction ops as [|a l IH]; simpl; intros Hnd Hr Hq Hid.
  - contradiction.
  - inversion Hnd as [|x xs Hnotin Hnd']; subst.
    destruct Hr as [Hr|Hr], Hq as [Hq|Hq]; subst.
    + reflexivity.
    + exfalso. apply Hnotin. rewrite <- Hid. now apply in_map.
    + exfalso. apply Hnotin. rewrite Hid. now apply in_map.
    + now apply IH.
Qed.

Lemma find_by_id_unique (ops : list operation) (r : operation) :
  ids_unique ops -> In r ops -> find (has_id (id r)) ops = Some r.
Proof.
  intros Hnd Hr.
  destruct (find (has_id (id r)) ops) as [q|] eqn:Hfind.
  - apply find_some in Hfind. destruct Hfind as [Hq Hid].
    apply has_id_true in Hid. f_equal. now apply (same_id_same_row ops).
  - exfalso. apply (find_none _ _ Hfind) in Hr.
    apply has_id_false in Hr. now apply Hr.
Qed.

Lemma existsb_has_id_false (i : Z) (l : list operation) :
  ~ In i (map id l) -> existsb (has_id i) l = false.
Proof.
  intros Hnotin. apply not_true_is_false. intros Hex.
  apply existsb_exists in Hex. destruct Hex as [q [Hq Hid]].
  apply has_id_true in Hid. apply Hnotin. rewrite <- Hid. now apply in_map.
Qed.

(** A selection of rows of a table with unique ids has unique ids. *)
Lemma filter_ids_unique (keep : operation -> bool) (ops : list operation) :
  ids_unique ops -> ids_unique (filter keep ops).
Proof.
  unfold ids_unique. intros Hnd.
  induction ops as [|a rest IH]; simpl in *; [constructor|].
  apply NoDup_cons_iff in Hnd. destruct Hnd as [Hnew Hrest].
  destruct (keep a); [|now apply IH].
  simpl. apply NoDup_cons_iff. split; [|now apply IH].
  intros Hin. apply Hnew.
  apply in_map_iff in Hin. destruct Hin as [q [Hid Hq]].
  apply filter_In in Hq. rewrite <- Hid. apply in_map. tauto.
Qed.

Lemma update_where_ids (cond : operation -> bool)
    (set : operation -> operation) (ops : list operation) :
  (forall r, id (set r) = id r) ->
  map id (update_where cond set ops) = map id ops.
Proof.
  intros Hset. unfold update_where. rewrite map_map. apply map_ext.
  intros r. destruct (cond r); auto.
Qed.

(** ** The queries of the watchdog *)

Lemma timed_out_is_stuck (now : Z) (r : operation) :
  is_timed_out now r = true -> is_stuck now r = true.
Proof.
  unfold is_timed_out, is_stuck, older_than, timeout_age, stuck_age.
  intros H. apply andb_true_iff in H. destruct H as [Hst Hold].
  apply andb_true_iff. split; [exact Hst|].
  destruct (started_at r) as [t|]; [|discriminate].
  apply Z.ltb_lt in Hold. apply Z.ltb_lt. lia.
Qed.

Lemma not_processing_not_stuck (now : Z) (r : operation) :
  status r <> processing -> is_stuck now r = false.
Proof.
  unfold is_stuck. destruct (status r); simpl; congruence.
Qed.

Lemma filter_none (A : Type) (p : A -> bool) (l : list A) :
  (forall x, In x l -> p x = false) -> filter p l = [].
Proof.
  induction l as [|a l IH]; simpl; intros H; [reflexivity|].
  rewrite (H a) by now left. apply IH. intros x Hx. apply H. now right.
Qed.

Lemma archivable_is_archived_row (now : Z) (q : operation) :
  is_archivable now q = true -> archived_row q.
Proof.
  unfold is_archivable, archived_row, older_than. intros H.
  apply andb_true_iff in H. destruct H as [Hterm Hold]. split; [exact Hterm|].
  destruct (completed_at q); [discriminate|discriminate Hold].
Qed.

(** ** core/database.sh *)

Lemma find_update_where (operation_id : Z) (set : operation -> operation)
    (ops : list operation) :
  (forall r, id (set r) = id r) ->
  find (has_id operation_id) (update_where (has_id operation_id) set ops)
  = option_map set (find (has_id operation_id) ops).
Proof.
  intros Hset. induction ops as [|a rest IH]; simpl; [reflexivity|].
  destruct (has_id operation_id a) eqn:Ha.
  - assert (Hset_a : has_id operation_id (set a) = true).
    { apply has_id_true. rewrite Hset. now apply has_id_true. }
    now rewrite Hset_a.
  - now rewrite Ha.
Qed.

Lemma filter_update_where_length (operation_id : Z) (cond : operation -> bool)
    (set : operation -> operation) (ops : list operation) :
  (forall r, id (set r) = id r) ->
  List.length (filter (has_id operation_id) (update_where cond set ops))
  = List.length (filter (has_id operation_id) ops).
Proof.
  intros Hset. induction ops as [|a rest IH]; simpl; [reflexivity|].
  assert (Hsame : has_id operation_id (if cond a then set a else a)
                  = has_id operation_id a).
  { destruct (cond a); [|reflexivity]. unfold has_id. now rewrite Hset. }
  rewrite Hsame. destruct (has_id operation_id a); simpl; now rewrite IH.
Qed.

Lemma update_where_no_match (cond : operation -> bool)
    (set : operation -> operation) (ops : list operation) :
  (forall r, In r ops -> cond r = false) -> update_where cond set ops = ops.
Proof.
  intros Hnone. unfold update_where. rewrite <- (map_id ops) at 2.
  apply map_ext_in. intros r Hr. now rewrite (Hnone r Hr).
Qed.

Lemma run_db_call_unknown_id (now : Z) (ops : list operation) (c : db_call) :
  (forall r, In r ops -> id r <> call_target c) -> run_db_call now ops c = ops.
Proof.
  intros Hnone.
  assert (Hcond : forall r, In r ops -> has_id (call_target c) r = false).
  { intros r Hr. apply has_id_false. now apply Hnone. }
  destruct c as [operation_id st msg|operation_id res]; simpl in *.
  - destruct st; simpl; try reflexivity; now apply update_where_no_match.
  - now apply update_where_no_match.
Qed.

Lemma run_db_call_ids (now : Z) (ops : list operation) (c : db_call) :
  map id (run_db_call now ops c) = map id ops.
Proof.
  destruct c as [operation_id st msg|operation_id res]; simpl.
  - destruct st; simpl; try reflexivity; now apply update_where_ids.
  - now apply update_where_ids.
Qed.

Lemma run_db_calls_ids (now : Z) (requests : list db_call) :
  forall ops, map id (run_db_calls now requests ops) = map id ops.
Proof.
  unfold run_db_calls. induction requests as [|c rest IH]; intros ops; simpl.
  - reflexivity.
  - rewrite IH. apply run_db_call_ids.
Qed.

(** X1. Status writes whose messages are literals never add, remove or
    reorder rows and never change an id, whatever sequence of them is made;
    writes addressed to ids that no row carries leave the table exactly as
    it is. *)
Theorem database_writes_keep_the_rows (now : Z) (requests : list db_call)
    (ops : list operation) :
  forallb literal_call requests = true ->
  map id (run_db_calls now requests ops) = map id ops
  /\ ((forall c r, In c requests -> In r ops -> id r <> call_target c) ->
      run_db_calls now requests ops = ops).
Proof.
  intros _. split.
  - apply run_db_calls_ids.
  - unfold run_db_calls. induction requests as [|c rest IH]; simpl;
      intros Hnone; [reflexivity|].
    rewrite run_db_call_unknown_id.
    + apply IH. intros c' r Hc' Hr. apply Hnone; auto.
    + intros r Hr. apply Hnone; auto.
Qed.

Lemma database_writes_keep_the_rows_witness :
  run_db_calls 500
    [UpdateStatus 9 failed "lost"; UpdateStatus 9 completed EmptyString]
    [stalled_row; finished_row]
  = [stalled_row; finished_row].
Proof.
  apply (database_writes_keep_the_rows 500
           [UpdateStatus 9 failed "lost"; UpdateStatus 9 completed EmptyString]
           [stalled_row; finished_row]).
  - reflexivity.
  - intros c r [Hc|[Hc|[]]] [Hr|[Hr|[]]]; subst c r; vm_compute; discriminate.
Defined.

(** X2. For an id that a row carries and a message that is a literal, the
    status written by [update_operation_status] is the status
    [get_operation_status] reads back, except that a request for [pending]
    (or any status other than the three the function knows) is dropped
    without a trace; the payload that [get_operation_data] reads and the
    answer of [check_operation_exists] are not affected by the write. *)
Theorem status_reads_back (operation_id now : Z) (st : op_status)
    (error_message : string) (ops : list operation) (r : operation) :
  literal_call (UpdateStatus operation_id st error_message) = true ->
  find (has_id operation_id) ops = Some r ->
  let ops' :=
    update_operation_status operation_id st error_message now ops in
  get_operation_status operation_id ops'
  = Some (match st with pending => status r | _ => st end)
  /\ get_operation_data operation_id ops' = Some (data r)
  /\ check_operation_exists operation_id ops'
     = check_operation_exists operation_id ops.
Proof.
  intros _ Hfind. simpl.
  unfold get_operation_status, get_operation_data, check_operation_exists.
  destruct st; simpl;
    try (rewrite find_update_where by reflexivity);
    try (rewrite filter_update_where_length by reflexivity);
    rewrite Hfind; simpl; repeat split.
Qed.

Lemma status_reads_back_witness :
  get_operation_status 1
    (update_operation_status 1 failed "no such site" 500
       [stalled_row; finished_row])
  = Some failed.
Proof.
  apply (status_reads_back 1 500 failed "no such site"
           [stalled_row; finished_row] stalled_row); reflexivity.
Defined.

(** ** The registry file and its loader *)

Lemma split_first_absent (c : ascii) (s : string) :
  contains_char c s = false -> split_first c s = None.
Proof.
  induction s as [|a rest IH]; simpl; [reflexivity|].
  intros H. apply orb_false_iff in H. destruct H as [Ha Hrest].
  now rewrite Ha, (IH Hrest).
Qed.

Lemma split_first_found (c : ascii) (before after : string) :
  contains_char c before = false ->
  split_first c (before ++ String c after)%string = Some (before, after).
Proof.
  induction before as [|a rest IH]; simpl.
  - intros _. now rewrite Ascii.eqb_refl.
  - intros H. apply orb_false_iff in H. destruct H as [Ha Hrest].
    now rewrite Ha, (IH Hrest).
Qed.

(** X12. A registry line written as [key=value], with no equals sign in the
    key or in the value, is read back by the loader's [read] as exactly that
    key and that value (an empty value included); a line without an equals
    sign is read as a key with an empty value. *)
Theorem registry_line_round_trip (key value : string) :
  contains_char "=" key = false ->
  contains_char "=" value = false ->
  read_two_fields (key ++ "=" ++ value)%string = (key, value)
  /\ read_two_fields key = (key, EmptyString).
Proof.
  intros Hkey Hvalue. unfold read_two_fields. split.
  - simpl. rewrite (split_first_found "=" key value Hkey).
    now rewrite (split_first_absent "=" value Hvalue).
  - now rewrite (split_first_absent "=" key Hkey).
Qed.

Lemma registry_line_round_trip_witness :
  read_two_fields
    ("site.create" ++ "=" ++ "/home/clp/scripts/sites/manage_site.sh create")
  = ("site.create", "/home/clp/scripts/sites/manage_site.sh create").
Proof.
  apply registry_line_round_trip; reflexivity.
Defined.

Lemma lookup_handler_app (key : string) (front back : registry) :
  lookup_handler key (front ++ back)
  = if existsb (fun e => (fst e =? key)%string) front
    then lookup_handler key front
    else lookup_handler key back.
Proof.
  unfold lookup_handler. induction front as [|e rest IH]; simpl; [reflexivity|].
  destruct (fst e =? key)%string; [reflexivity|exact IH].
Qed.

Lemma lookup_handler_assign (key assigned value : string)
    (handlers : registry) :
  lookup_handler key (assign_handler assigned value handlers)
  = lookup_handler key ((assigned, value) :: handlers).
Proof.
  unfold lookup_handler, assign_handler. simpl.
  destruct (assigned =? key)%string eqn:Hk; [reflexivity|].
  induction handlers as [|e rest IH]; simpl; [reflexivity|].
  destruct (fst e =? assigned)%string eqn:He; simpl.
  - apply String.eqb_eq in He. rewrite He, Hk. exact IH.
  - destruct (fst e =? key)%string; [reflexivity|exact IH].
Qed.

Lemma lines_from_no_newline (tail : string) :
  contains_char newline tail = false ->
  forall line, lines_from line tail = [].
Proof.
  induction tail as [|c rest IH]; intros Hnone line; [reflexivity|].
  cbn [contains_char] in Hnone. apply orb_false_iff in Hnone.
  destruct Hnone as [Hc Hrest].
  cbn [lines_from]. rewrite Hc. now apply IH.
Qed.

Lemma line_append_empty (line : string) : (line ++ EmptyString)%string = line.
Proof. induction line as [|a line IH]; simpl; [reflexivity|now rewrite IH]. Qed.

Lemma line_append_assoc (a b c : string) :
  ((a ++ b) ++ c)%string = (a ++ b ++ c)%string.
Proof. induction a as [|x a IH]; simpl; [reflexivity|now rewrite IH]. Qed.

Lemma lines_from_line (l : string) :
  contains_char newline l = false ->
  forall line rest,
    lines_from line (l ++ String newline rest)
    = (line ++ l)%string :: lines_from EmptyString rest.
Proof.
  induction l as [|c more IH]; intros Hnone line rest.
  - cbn [append lines_from]. rewrite Ascii.eqb_refl.
    now rewrite line_append_empty.
  - cbn [contains_char] in Hnone. apply orb_false_iff in Hnone.
    destruct Hnone as [Hc Hmore].
    cbn [append lines_from]. rewrite Hc, (IH Hmore).
    now rewrite line_append_assoc.
Qed.

(** A file read back line by line: the lines that end with a line feed,
    and nothing of what stands behind the last one. *)
Lemma terminated_lines_file_text (lines : list string) (tail : string) :
  Forall (fun l => contains_char newline l = false) lines ->
  contains_char newline tail = false ->
  terminated_lines (file_text lines ++ tail) = lines.
Proof.
  intros Hlines Htail. unfold terminated_lines.
  induction Hlines as [|l rest Hl _ IH]; cbn [file_text fold_right].
  - now apply lines_from_no_newline.
  - rewrite line_append_assoc. cbn [append].
    rewrite (lines_from_line l Hl). cbn [append].
    fold (file_text rest). now rewrite IH.
Qed.

(** X13. In a registry file in which no line has an empty key, every line
    that ends with a line feed is an assignment, and a later line overrides
    an earlier one for the same key: looking a type up after loading is
    looking it up in the lines read backwards, and then in what the array
    held before.  What stands behind the last line feed of the file is not
    registered. *)
Theorem later_lines_override (lines : list string) (tail : string) :
  Forall (fun l => contains_char newline l = false) lines ->
  Forall (fun l => fst (read_two_fields l) <> EmptyString) lines ->
  contains_char newline tail = false ->
  forall (key : string) (handlers : registry),
    lookup_handler key
      (load_registry_file (file_text lines ++ tail) handlers)
    = lookup_handler key (rev (map read_two_fields lines) ++ handlers).
Proof.
  intros Hlines Hkeys Htail key handlers. unfold load_registry_file.
  rewrite (terminated_lines_file_text lines tail Hlines Htail).
  clear Hlines Htail. revert handlers.
  induction Hkeys as [|l rest Hl _ IH]; intros handlers; simpl; [reflexivity|].
  destruct (read_two_fields l) as [operation_type handler_script] eqn:Hread.
  simpl in Hl. apply String.eqb_neq in Hl. rewrite Hl.
  rewrite IH, <- app_assoc. simpl.
  rewrite !lookup_handler_app.
  destruct (existsb _ (rev (map read_two_fields rest))); [reflexivity|].
  apply lookup_handler_assign.
Qed.

Lemma later_lines_override_witness :
  lookup_handler "site.create"
    (load_registry_file
       (file_text
          ["site.create=/bin/false"; "# handlers";
           "site.create=/home/clp/scripts/sites/manage_site.sh"]
        ++ "site.create=/bin/true")
       [])
  = lookup_handler "site.create"
      (rev (map read_two_fields
              ["site.create=/bin/false"; "# handlers";
               "site.create=/home/clp/scripts/sites/manage_site.sh"]) ++ []).
Proof.
  apply later_lines_override.
  - repeat constructor.
  - repeat constructor; vm_compute; discriminate.
  - reflexivity.
Defined.

(** X14. A blank line, or a line that starts with an equals sign, ends the
    loading: the lines after it are never registered, whatever they hold,
    and the array is what the lines before it made of it. *)
Theorem loading_stops_at_an_empty_key (before after : list string)
    (handlers : registry) (rest : string) :
  load_operation_handlers (before ++ EmptyString :: after) handlers
  = load_operation_handlers before handlers
  /\ load_operation_handlers (before ++ String "=" rest :: after) handlers
     = load_operation_handlers before handlers.
Proof.
  revert handlers. induction before as [|l more IH]; intros handlers; simpl.
  - split; [reflexivity|].
    unfold read_two_fields. simpl.
    destruct (split_first "=" rest) as [[field remainder]|];
      [destruct remainder|]; reflexivity.
  - destruct (read_two_fields l) as [operation_type handler_script].
    destruct (operation_type =? EmptyString)%string; [split; reflexivity|].
    apply IH.
Qed.

(** ** The shipped registry *)

(** Every mapping line of the shipped file gives a path, a space and an
    argument as the value. *)
Lemma shipped_values_have_an_argument :
  List.length (mapping_lines operation_types_conf) = 24%nat
  /\ forallb (fun e => path_with_argument (snd e))
       (mapping_lines operation_types_conf)
     = true.
Proof. split; vm_compute; reflexivity. Qed.

(** The array as the loader leaves it: the lines before the first blank
    line of the file. *)
Lemma shipped_registry :
  OPERATION_HANDLERS
  = [ ("site.update", "/home/clp/scripts/sites/manage_site.sh update");
      ("site.delete", "/home/clp/scripts/sites/manage_site.sh delete");
      ("site.create", "/home/clp/scripts/sites/manage_site.sh create");
      ("# Site Operations", EmptyString) ].
Proof. vm_compute. reflexivity. Qed.

(** Every type with a mapping line is either not registered, or registered
    with the value of its line, which holds a space. *)
Lemma shipped_types_lookup :
  forall operation_type value,
    In (operation_type, value) (mapping_lines operation_types_conf) ->
    lookup_handler operation_type OPERATION_HANDLERS = EmptyString
    \/ (lookup_handler operation_type OPERATION_HANDLERS = value
        /\ value <> EmptyString
        /\ contains_char " " value = true).
Proof.
  intros operation_type value Hin.
  assert (Hall : forallb
                   (fun e =>
                      (lookup_handler (fst e) OPERATION_HANDLERS =? EmptyString)%string
                      || ((lookup_handler (fst e) OPERATION_HANDLERS =? snd e)
                            %string
                          && negb (snd e =? EmptyString)%string
                          && contains_char " " (snd e)))
                   (mapping_lines operation_types_conf) = true)
    by (vm_compute; reflexivity).
  apply (proj1 (forallb_forall _ _) Hall) in Hin. simpl in Hin.
  apply orb_true_iff in Hin. destruct Hin as [Hnone|Hsome].
  - left. now apply String.eqb_eq.
  - right. apply andb_true_iff in Hsome. destruct Hsome as [Hsome Hspace].
    apply andb_true_iff in Hsome. destruct Hsome as [Hvalue Hnonempty].
    apply String.eqb_eq in Hvalue. apply negb_true_iff in Hnonempty.
    apply String.eqb_neq in Hnonempty. auto.
Qed.

(** C10 (not met by the scripts). Every mapping line of the shipped file
    has a path, a space and an argument as its value, but the loader stops
    at the first blank line of the file: the array holds the three [site.*]
    lines and the comment line above them, and nothing else.  [user.create]
    has a mapping line and is not registered; the lookup that
    [process_operation] makes for it gives the empty string, not the value
    of its line.  A type with a mapping line is either not registered, or
    registered with the value of its line, which holds a space. *)
Theorem unregistered_type_has_no_handler :
  In ("user.create", "/home/clp/scripts/user/manage_user.sh create")
    (mapping_lines operation_types_conf)
  /\ forallb (fun e => path_with_argument (snd e))
       (mapping_lines operation_types_conf)
     = true
  /\ OPERATION_HANDLERS
     = [ ("site.update", "/home/clp/scripts/sites/manage_site.sh update");
         ("site.delete", "/home/clp/scripts/sites/manage_site.sh delete");
         ("site.create", "/home/clp/scripts/sites/manage_site.sh create");
         ("# Site Operations", EmptyString) ]
  /\ lookup_handler "user.create" OPERATION_HANDLERS = EmptyString
  /\ (forall operation_type value,
        In (operation_type, value) (mapping_lines operation_types_conf) ->
        lookup_handler operation_type OPERATION_HANDLERS = EmptyString
        \/ (lookup_handler operation_type OPERATION_HANDLERS = value
            /\ contains_char " " value = true)).
Proof.
  split; [vm_compute; tauto|].
  split; [apply shipped_values_have_an_argument|].
  split; [apply shipped_registry|].
  split; [reflexivity|].
  intros operation_type value Hin.
  destruct (shipped_types_lookup operation_type value Hin)
    as [Hnone|[Hvalue [_ Hspace]]]; auto.
Qed.

(** ** sites/manage_site.sh *)

Ltac split_conditions :=
  repeat match goal with
         | |- context [if ?b then _ else _] => destruct b eqn:?
         end.

(** X19. Started with a first argument other than [create] or [delete] (the
    dispatcher passes the operation type, such as [site.create]), the site
    handler performs no action: it exits with status 1 after at most one
    database call, which marks the row [processing]; the row is never
    marked [completed] or [failed]. *)
Theorem site_handler_started_with_a_type
    (site_action : string -> option json_object -> Z)
    (operation_arg : string) (OPERATION_ID : Z) (ops : list operation) :
  operation_arg <> "create" ->
  operation_arg <> "delete" ->
  snd (manage_site_main site_action operation_arg OPERATION_ID ops) = 1
  /\ (fst (manage_site_main site_action operation_arg OPERATION_ID ops) = []
      \/ fst (manage_site_main site_action operation_arg OPERATION_ID ops)
         = [UpdateStatus OPERATION_ID processing EmptyString]).
Proof.
  intros Hcreate Hdelete. unfold manage_site_main.
  apply String.eqb_neq in Hcreate. apply String.eqb_neq in Hdelete.
  rewrite Hcreate, Hdelete.
  destruct (negb (validate_site_data _ _)); simpl; auto.
Qed.

Lemma site_handler_started_with_a_type_witness :
  snd (manage_site_main clpctl_ok "site.create" 3 [waiting_row]) = 1.
Proof.
  apply (site_handler_started_with_a_type clpctl_ok "site.create" 3
           [waiting_row]); discriminate.
Defined.

Lemma run_site_action_report
    (site_action : string -> option json_object -> Z) (name : string)
    (site_data : option json_object) (OPERATION_ID : Z) :
  let run := run_site_action site_action name site_data OPERATION_ID in
  (snd run = 0 <->
   fst run = [UpdateStatus OPERATION_ID processing EmptyString;
              UpdateStatus OPERATION_ID completed EmptyString])
  /\ (forall c, In c (fst run) ->
        call_target c = OPERATION_ID
        /\ forall i msg, c <> UpdateStatus i failed msg).
Proof.
  simpl. unfold run_site_action.
  destruct (site_action name site_data =? 0) eqn:Hok; simpl.
  - split; [tauto|]. intros c [ <- | [ <- | [] ] ]; split; auto; discriminate.
  - apply Z.eqb_neq in Hok. split.
    + split; [intros; contradiction|discriminate].
    + intros c [ <- | [] ]. split; auto; discriminate.
Qed.

(** X20. Whatever its arguments and whatever [clpctl] answers, the site
    handler writes to the row of its own operation id only, never marks it
    [failed] (a failing [clpctl] ends the script before any report, so the
    row stays [processing]), and exits with status 0 exactly when it has
    marked the row [processing] and then [completed]. *)
Theorem site_handler_reports_success_only
    (site_action : string -> option json_object -> Z)
    (operation_arg : string) (OPERATION_ID : Z) (ops : list operation) :
  let run := manage_site_main site_action operation_arg OPERATION_ID ops in
  (snd run = 0 <->
   fst run = [UpdateStatus OPERATION_ID processing EmptyString;
              UpdateStatus OPERATION_ID completed EmptyString])
  /\ (forall c, In c (fst run) ->
        call_target c = OPERATION_ID
        /\ forall i msg, c <> UpdateStatus i failed msg).
Proof.
  simpl. unfold manage_site_main.
  assert (Hstop : forall requests,
             requests = [] \/
             requests = [UpdateStatus OPERATION_ID processing EmptyString] ->
             ((1 = 0 <->
               requests
               = [UpdateStatus OPERATION_ID processing EmptyString;
                  UpdateStatus OPERATION_ID completed EmptyString])
              /\ (forall c, In c requests ->
                    call_target c = OPERATION_ID
                    /\ forall i msg, c <> UpdateStatus i failed msg))).
  { intros requests [ -> | -> ]; (split; [split; discriminate|]).
    - intros c [].
    - intros c [ <- | [] ]. split; auto; discriminate. }
  split_conditions; simpl;
    try (apply Hstop; auto);
    apply run_site_action_report.
Qed.

Lemma site_handler_targets
    (site_action : string -> option json_object -> Z)
    (operation_arg : string) (OPERATION_ID : Z) (ops : list operation)
    (c : db_call) :
  In c (fst (manage_site_main site_action operation_arg OPERATION_ID ops)) ->
  call_target c = OPERATION_ID.
Proof.
  unfold manage_site_main, run_site_action.
  split_conditions; simpl; intros Hc;
    repeat (destruct Hc as [Hc|Hc]; [subst c; reflexivity|]);
    contradiction.
Qed.

(** X21. Started on an operation id that no row carries, the site handler
    does not stop at validation: [jq] prints nothing for a missing
    document, and nothing is not the word [null].  With [delete] as first
    argument it runs the delete action on an empty payload.  Whatever the
    argument, its database calls find no row and the table stays as it
    is. *)
Theorem site_handler_without_a_row
    (site_action : string -> option json_object -> Z)
    (operation_arg : string) (OPERATION_ID now : Z) (ops : list operation) :
  (forall r, In r ops -> id r <> OPERATION_ID) ->
  get_operation_data OPERATION_ID ops = None
  /\ validate_site_data None EmptyString = true
  /\ manage_site_main site_action "delete" OPERATION_ID ops
     = run_site_action site_action "delete_site" None OPERATION_ID
  /\ run_db_calls now
       (fst (manage_site_main site_action operation_arg OPERATION_ID ops)) ops
     = ops.
Proof.
  intros Hnone.
  assert (Hdata : get_operation_data OPERATION_ID ops = None).
  { unfold get_operation_data.
    destruct (find (has_id OPERATION_ID) ops) as [r|] eqn:Hfind; [|reflexivity].
    apply find_some in Hfind. destruct Hfind as [Hr Hid].
    apply has_id_true in Hid. exfalso. exact (Hnone r Hr Hid). }
  split; [exact Hdata|]. split; [reflexivity|]. split.
  - unfold manage_site_main. rewrite Hdata. reflexivity.
  - pose proof (site_handler_targets site_action operation_arg OPERATION_ID
                  ops) as Htargets.
    unfold run_db_calls.
    induction (fst (manage_site_main site_action operation_arg OPERATION_ID
                      ops)) as [|c rest IH]; simpl; [reflexivity|].
    rewrite run_db_call_unknown_id.
    + apply IH. intros c' Hc'. apply Htargets. now right.
    + intros r Hr. rewrite (Htargets c (or_introl eq_refl)). now apply Hnone.
Qed.

Lemma site_handler_without_a_row_witness :
  manage_site_main clpctl_ok "delete" 9 [waiting_row]
  = run_site_action clpctl_ok "delete_site" None 9.
Proof.
  apply (site_handler_without_a_row clpctl_ok "delete" 9 500 [waiting_row]).
  intros r [Hr|[]]. subst r. discriminate.
Defined.

(** ** user/manage_user.sh *)

Lemma user_run_cases (clpctl : command -> Z) (user_listed : string -> bool)
    (operation_arg : string) (operation_id : Z) (ops : list operation) :
  let run :=
    manage_user_main clpctl user_listed operation_arg operation_id ops in
  (exit_status run = 0
   /\ exists msg, calls run = [UpdateStatus operation_id completed msg])
  \/ (exit_status run <> 0 /\ calls run = []).
Proof.
  simpl. unfold manage_user_main, create_user, delete_user, reset_password.
  split_conditions; simpl;
    try (left; split; [reflexivity|eexists; reflexivity]);
    try (right; split; [discriminate|reflexivity]);
    right; (split; [|reflexivity]);
    match goal with
    | H : (_ =? 0) = false |- _ => apply Z.eqb_neq in H; exact H
    end.
Qed.

Lemma completed_write_keeps_not_processing (now : Z) (operation_id : Z)
    (msg : string) (ops : list operation) (q : operation) :
  (forall r, In r ops -> status r <> processing) ->
  In q (update_operation_status operation_id completed msg now ops) ->
  status q <> processing.
Proof.
  intros Hnone Hq. simpl in Hq. unfold update_where in Hq.
  apply in_map_iff in Hq. destruct Hq as [r [Hq Hr]]. subst q.
  destruct (has_id operation_id r); [discriminate|now apply Hnone].
Qed.

(** X22. The user handler has one report only: it marks its row
    [completed] when it exits with status 0, and makes no database call at
    all when it exits with another status (unknown first argument, refused
    user name, failing [clpctl]).  It never marks a row [processing], so on
    a table without [processing] rows the watchdog's stuck query finds
    nothing after it has run, however long it took. *)
Theorem user_handler_reports_completion_only (clpctl : command -> Z)
    (user_listed : string -> bool) (operation_arg : string)
    (operation_id : Z) (ops : list operation) :
  let run :=
    manage_user_main clpctl user_listed operation_arg operation_id ops in
  (exit_status run = 0 ->
   exists msg, calls run = [UpdateStatus operation_id completed msg])
  /\ (exit_status run <> 0 -> calls run = [])
  /\ (forall now later,
        (forall r, In r ops -> status r <> processing) ->
        stuck_ops later (run_db_calls now (calls run) ops) = []).
Proof.
  simpl.
  destruct (user_run_cases clpctl user_listed operation_arg operation_id ops)
    as [[Hzero [msg Hcalls]]|[Hnonzero Hcalls]].
  - split; [eauto|]. split; [intros Hne; contradiction|].
    intros now later Hnone. rewrite Hcalls. unfold stuck_ops.
    apply filter_none. intros q Hq. apply not_processing_not_stuck.
    now apply (completed_write_keeps_not_processing now operation_id msg ops).
  - split; [intros Hzero; contradiction|]. split; [auto|].
    intros now later Hnone. rewrite Hcalls. unfold stuck_ops.
    apply filter_none. intros q Hq. apply not_processing_not_stuck.
    now apply Hnone.
Qed.

Lemma all_chars_excludes (p : ascii -> bool) (c : ascii) (s : string) :
  all_chars p s = true -> p c = false -> contains_char c s = false.
Proof.
  induction s as [|a rest IH]; simpl; [reflexivity|].
  intros Hall Hc. apply andb_true_iff in Hall. destruct Hall as [Ha Hrest].
  rewrite (IH Hrest Hc), orb_false_r.
  destruct (Ascii.eqb_spec a c) as [->|]; [congruence|reflexivity].
Qed.

Lemma user_commands (clpctl : command -> Z) (user_listed : string -> bool)
    (operation_arg : string) (operation_id : Z) (ops : list operation)
    (cmd : command) :
  In cmd
    (commands
       (manage_user_main clpctl user_listed operation_arg operation_id ops)) ->
  cmd = ["user:list"]
  \/ exists verb more,
       cmd
       = verb
           :: ("--userName="
               ++ jq_r "user_name" (get_operation_data operation_id ops))%string
           :: more.
Proof.
  unfold manage_user_main, create_user, delete_user, reset_password.
  split_conditions; simpl; intros Hcmd;
    repeat (destruct Hcmd as [Hcmd|Hcmd];
            [subst cmd; try (left; reflexivity);
             right; do 2 eexists; reflexivity|]);
    contradiction.
Qed.

Lemma user_commands_need_valid_name (clpctl : command -> Z)
    (user_listed : string -> bool) (operation_arg : string)
    (operation_id : Z) (ops : list operation) :
  commands
    (manage_user_main clpctl user_listed operation_arg operation_id ops)
  <> [] ->
  validate_username (jq_r "user_name" (get_operation_data operation_id ops))
  = true.
Proof.
  unfold manage_user_main, create_user, delete_user, reset_password.
  destruct (validate_username
              (jq_r "user_name" (get_operation_data operation_id ops)));
    [reflexivity|].
  simpl. split_conditions; simpl; intros Hne; now contradiction Hne.
Qed.

(** X23. No [clpctl] command is started for a user name that
    [validate_username] refuses: every command the user handler starts,
    apart from the listing of the users, carries as its first argument the
    user name of the payload, and that name is not empty and holds none of
    the characters outside letters, digits, dot, underscore and hyphen (no
    space, no quote, no slash, ...). *)
Theorem user_commands_carry_validated_names (clpctl : command -> Z)
    (user_listed : string -> bool) (operation_arg : string)
    (operation_id : Z) (ops : list operation) (cmd : command) :
  In cmd
    (commands
       (manage_user_main clpctl user_listed operation_arg operation_id ops)) ->
  cmd = ["user:list"]
  \/ exists verb name more,
       cmd = verb :: ("--userName=" ++ name)%string :: more
       /\ name <> EmptyString
       /\ forall c, username_char c = false -> contains_char c name = false.
Proof.
  intros Hcmd.
  assert (Hvalid : validate_username
                     (jq_r "user_name"
                        (get_operation_data operation_id ops)) = true).
  { apply (user_commands_need_valid_name clpctl user_listed operation_arg).
    intros Hnil. rewrite Hnil in Hcmd. contradiction. }
  destruct (user_commands _ _ _ _ _ _ Hcmd) as [Hlist|[verb [more Heq]]];
    [now left|right].
  exists verb, (jq_r "user_name" (get_operation_data operation_id ops)), more.
  unfold validate_username in Hvalid. apply andb_true_iff in Hvalid.
  destruct Hvalid as [Hnonempty Hall]. split; [exact Heq|]. split.
  - apply negb_true_iff in Hnonempty. now apply String.eqb_neq.
  - intros c Hc. now apply (all_chars_excludes username_char).
Qed.

Lemma user_commands_carry_validated_names_witness :
  ["user:delete"; "--userName=null"] = ["user:list"]
  \/ exists verb name more,
       ["user:delete"; "--userName=null"]
       = verb :: ("--userName=" ++ name)%string :: more
       /\ name <> EmptyString
       /\ forall c, username_char c = false -> contains_char c name = false.
Proof.
  apply (user_commands_carry_validated_names clpctl_always every_user_listed
           "delete" 4 [user_row]).
  vm_compute. auto.
Defined.

Lemma jq_r_missing (field : string) (o : json_object) :
  (forall v, ~ In (field, v) o) -> jq_r field (Some o) = "null".
Proof.
  intros Hmissing. unfold jq_r.
  destruct (find (fun kv => (fst kv =? field)%string) o) as [[k v]|] eqn:Hfind;
    [|reflexivity].
  apply find_some in Hfind. destruct Hfind as [Hin Hkey]. simpl in Hkey.
  apply String.eqb_eq in Hkey. subst k. exfalso. exact (Hmissing v Hin).
Qed.

(** X24. [create_user] does not notice a missing field.  For a payload
    without [user_name] the name read is the word [null], which
    [validate_username] accepts, and [clpctl user:add] is started for the
    user [null]; with a failing [clpctl] the exit status is that of
    [clpctl] and nothing is written.  For a payload without [timezone] or
    [status] the arguments are [--timezone=null] and [--status=null]: the
    defaults [UTC] and [1] of the script are not applied. *)
Theorem create_user_passes_null_for_missing_fields (clpctl : command -> Z)
    (user_listed : string -> bool) (operation_id : Z) (ops : list operation)
    (o : json_object) :
  get_operation_data operation_id ops = Some o ->
  (forall v, ~ In ("user_name", v) o) ->
  validate_username "null" = true
  /\ (exists add,
        commands (create_user clpctl operation_id ops) = [add]
        /\ nth_error add 0 = Some "user:add"
        /\ nth_error add 1 = Some "--userName=null"
        /\ exit_status (create_user clpctl operation_id ops) = clpctl add
        /\ ((forall v, ~ In ("timezone", v) o) ->
            nth_error add 7 = Some "--timezone=null")
        /\ ((forall v, ~ In ("status", v) o) ->
            nth_error add 8 = Some "--status=null")).
Proof.
  intros Hdata Hname. split; [reflexivity|].
  unfold create_user. rewrite Hdata.
  rewrite (jq_r_missing "user_name" o Hname).
  change (negb (validate_username "null")) with false. cbv iota.
  eexists. split.
  - destruct (clpctl _ =? 0); reflexivity.
  - split; [reflexivity|]. split; [reflexivity|]. split.
    + destruct (clpctl _ =? 0) eqn:Hok; [|reflexivity].
      apply Z.eqb_eq in Hok. symmetry. exact Hok.
    + split; intros Hmissing; cbn [nth_error];
        now rewrite (jq_r_missing _ o Hmissing).
Qed.

Lemma create_user_passes_null_for_missing_fields_witness :
  exists add,
    commands (create_user clpctl_always 4 [user_row]) = [add]
    /\ nth_error add 0 = Some "user:add"
    /\ nth_error add 1 = Some "--userName=null".
Proof.
  destruct (create_user_passes_null_for_missing_fields clpctl_always
              every_user_listed 4 [user_row] static_site)
    as [_ [add [Hrun [Hverb [Hname _]]]]].
  - reflexivity.
  - intros v [Hin|[Hin|[]]]; discriminate.
  - exists add. auto.
Defined.

(** ** The claim step *)

(** A [completed] row: the compare-and-set of the design refuses it and
    changes nothing, [update_operation_status] puts it back to
    [processing], and so does the site handler when it is started on it. *)
Lemma claim_of_finished_row_counterexample :
  status finished_row = completed
  /\ claim_as_specified 2 500 [finished_row] = ([finished_row], false)
  /\ update_operation_status 2 processing EmptyString 500 [finished_row]
     = [set_processing 500 finished_row]
  /\ get_operation_status 2
       (update_operation_status 2 processing EmptyString 500 [finished_row])
     = Some processing
  /\ update_operation_status 2 processing EmptyString 500 [finished_row]
     <> fst (claim_as_specified 2 500 [finished_row])
  /\ get_operation_status 2
       (run_db_calls 500
          (fst (manage_site_main clpctl_ok "site.delete" 2 [finished_row]))
          [finished_row])
     = Some processing.
Proof.
  repeat split; try reflexivity. vm_compute. discriminate.
Qed.

(** C3 (amended). The claim step, [update_operation_status id
    "processing"], makes no test of the current status and returns nothing:
    it sets [status] to [processing] and [started_at] to the current time on
    the row with the given id, whatever state that row is in, and leaves its
    other fields and all other rows as they are.  When the rows with that id
    are [pending], this is the transition of the design. *)
Theorem claim_step_is_unconditional (operation_id now : Z)
    (error_message : string) (ops : list operation) :
  update_operation_status operation_id processing error_message now ops
  = map (fun r => if id r =? operation_id then set_processing now r else r)
      ops
  /\ (forall r,
        let r' := set_processing now r in
        status r' = processing
        /\ started_at r' = Some now
        /\ id r' = id r /\ type r' = type r /\ data r' = data r
        /\ source r' = source r /\ retry_count r' = retry_count r
        /\ error r' = error r /\ result r' = result r
        /\ created_at r' = created_at r /\ completed_at r' = completed_at r)
  /\ ((forall r, In r ops -> id r = operation_id -> status r = pending) ->
      update_operation_status operation_id processing error_message now ops
      = fst (claim_as_specified operation_id now ops)).
Proof.
  split; [reflexivity|]. split; [intros r; simpl; repeat split|].
  intros Hpending. simpl. unfold update_where. apply map_ext_in.
  intros r Hr. destruct (has_id operation_id r) eqn:Hid; [|reflexivity].
  apply has_id_true in Hid. now rewrite (Hpending r Hr Hid).
Qed.

Lemma claim_step_is_unconditional_witness :
  update_operation_status 3 processing EmptyString 500
    [finished_row; waiting_row]
  = fst (claim_as_specified 3 500 [finished_row; waiting_row]).
Proof.
  apply (claim_step_is_unconditional 3 500 EmptyString
           [finished_row; waiting_row]).
  intros r [Hr|[Hr|[]]] Hid; subst r.
  - vm_compute in Hid. discriminate.
  - reflexivity.
Defined.

(** ** Rows of the panel's own path *)

Lemma site_handler_claims_its_row
    (site_action : string -> option json_object -> Z)
    (operation_arg : string) (OPERATION_ID : Z) (ops : list operation) :
  validate_site_data (get_operation_data OPERATION_ID ops)
    (jq_r "type" (get_operation_data OPERATION_ID ops)) = true ->
  exists rest,
    fst (manage_site_main site_action operation_arg OPERATION_ID ops)
    = UpdateStatus OPERATION_ID processing EmptyString :: rest.
Proof.
  intros Hvalid. unfold manage_site_main, run_site_action. rewrite Hvalid.
  cbn [negb]. split_conditions; simpl; eexists; reflexivity.
Qed.

(** C1 (not met by the scripts). No query of the two daemons and no handler
    looks at [source]: the pending query and the stuck query select a [ui]
    row like any other, and the site handler, started on a waiting [ui] row
    that the gate of the design note would refuse, marks it [processing]
    and exits with status 1.  For every [ui] row whose payload passes
    validation, whatever the arguments, the gate of the design note would
    refuse the row and the first call of the site handler marks it
    [processing]. *)
Theorem ui_rows_are_processed :
  source ui_waiting_row = ui
  /\ source ui_stalled_row = ui
  /\ pending_ops [ui_waiting_row] = [ui_waiting_row]
  /\ stuck_ops 5000 [ui_stalled_row] = [ui_stalled_row]
  /\ should_handle_operation 5 [ui_waiting_row] = false
  /\ (forall site_action,
        manage_site site_action "/home/clp/scripts/sites/manage_site.sh"
          "site.create" 5 [ui_waiting_row]
        = ([UpdateStatus 5 processing EmptyString], 1))
  /\ (forall site_action operation_arg OPERATION_ID ops r,
        find (has_id OPERATION_ID) ops = Some r ->
        source r = ui ->
        validate_site_data (Some (data r)) (jq_r "type" (Some (data r)))
        = true ->
        should_handle_operation OPERATION_ID ops = false
        /\ exists rest,
             fst (manage_site_main site_action operation_arg OPERATION_ID ops)
             = UpdateStatus OPERATION_ID processing EmptyString :: rest).
Proof.
  repeat (split; [reflexivity|]).
  intros site_action operation_arg OPERATION_ID ops r Hfind Hui Hvalid.
  split.
  - unfold should_handle_operation. now rewrite Hfind, Hui.
  - apply site_handler_claims_its_row.
    unfold get_operation_data. rewrite Hfind. exact Hvalid.
Qed.

(** ** core/logging.sh *)

Ltac solve_new_line :=
  first
    [ assumption
    | apply Forall_app; split;
      [ assumption
      | constructor;
        [ cbv; intuition (try discriminate; try reflexivity)
        | constructor ] ] ].

Lemma log_at_consistent (level : log_level) (message : string) (s : logging) :
  logs_consistent s -> logs_consistent (log_at level message s).
Proof.
  unfold logs_consistent, log_at. intros [Hdebug [Herror Hsys]].
  destruct (LOG_LEVELS level >=? CURRENT_LOG_LEVEL s); [|auto].
  destruct level; unfold log; simpl;
    (split; [solve_new_line|split; [solve_new_line|]]);
    try assumption;
    rewrite filter_app, map_app; simpl; rewrite Hsys;
    rewrite ?app_nil_r; reflexivity.
Qed.

Lemma set_log_level_consistent (name : string) (s : logging) :
  logs_consistent s -> logs_consistent (set_log_level name s).
Proof.
  intros Hs. unfold set_log_level.
  destruct (level_of_name name); apply log_at_consistent; exact Hs.
Qed.

(** X25. Whatever sequence of logging calls and level changes a script
    makes, the debug log receives lines of level DEBUG and INFO only, the
    error log lines of level WARNING and above only, and the system log
    holds exactly the ERROR and CRITICAL lines of the error log, in the
    same order. *)
Theorem logs_stay_consistent (requests : list log_call) (s : logging) :
  logs_consistent s -> logs_consistent (run_log_calls requests s).
Proof.
  unfold run_log_calls. revert s.
  induction requests as [|c rest IH]; intros s Hs; simpl; [exact Hs|].
  apply IH. destruct c; simpl.
  - now apply log_at_consistent.
  - now apply set_log_level_consistent.
Qed.

Lemma logs_stay_consistent_witness :
  logs_consistent
    (run_log_calls
       [LogAt DEBUG "start"; LogAt ERROR "no row"; SetLogLevel "DEBUG";
        LogAt DEBUG "again"; SetLogLevel "loud"; LogAt CRITICAL "stop"]
       logging_start).
Proof.
  apply logs_stay_consistent.
  unfold logs_consistent. simpl. repeat split; constructor.
Defined.

(** X26. A message whose level is below [CURRENT_LOG_LEVEL] leaves no
    trace, and one at or above it adds a line.  [set_log_level] with a name
    that is not a level keeps the level and reports the name as an error
    (unless the level is CRITICAL, when nothing is written).  With the name
    of a level it sets that level, and confirms the change in the debug log
    only for DEBUG and INFO: the confirmation is written at level INFO,
    after the change.  Once the level is CRITICAL, errors are dropped. *)
Theorem log_level_filter (name message : string) (level : log_level)
    (s : logging) :
  (LOG_LEVELS level < CURRENT_LOG_LEVEL s -> log_at level message s = s)
  /\ (CURRENT_LOG_LEVEL s <= LOG_LEVELS level ->
      (List.length (debug_log (log_at level message s))
       + List.length (error_log (log_at level message s))
       = S (List.length (debug_log s) + List.length (error_log s)))%nat)
  /\ (level_of_name name = None ->
      CURRENT_LOG_LEVEL (set_log_level name s) = CURRENT_LOG_LEVEL s
      /\ debug_log (set_log_level name s) = debug_log s
      /\ (CURRENT_LOG_LEVEL s <= LOG_LEVELS ERROR ->
          error_log (set_log_level name s)
          = error_log s ++ [mkLine ERROR ("Invalid log level: " ++ name)])
      /\ (LOG_LEVELS ERROR < CURRENT_LOG_LEVEL s ->
          set_log_level name s = s))
  /\ (level_of_name name = Some level ->
      CURRENT_LOG_LEVEL (set_log_level name s) = LOG_LEVELS level
      /\ error_log (set_log_level name s) = error_log s
      /\ (LOG_LEVELS level <= LOG_LEVELS INFO ->
          debug_log (set_log_level name s)
          = debug_log s ++ [mkLine INFO ("Log level set to " ++ name)])
      /\ (LOG_LEVELS INFO < LOG_LEVELS level ->
          debug_log (set_log_level name s) = debug_log s))
  /\ log_error message (set_log_level "CRITICAL" s)
     = set_log_level "CRITICAL" s.
Proof.
  split; [|split; [|split; [|split]]].
  - intros Hlow. unfold log_at.
    destruct (LOG_LEVELS level >=? CURRENT_LOG_LEVEL s) eqn:Hge;
      [|reflexivity].
    rewrite Z.geb_leb in Hge. apply Z.leb_le in Hge. lia.
  - intros Hhigh. unfold log_at.
    destruct (LOG_LEVELS level >=? CURRENT_LOG_LEVEL s) eqn:Hge.
    + destruct level; unfold log; simpl; rewrite ?length_app; simpl; lia.
    + rewrite Z.geb_leb in Hge. apply Z.leb_gt in Hge. lia.
  - intros Hnone. unfold set_log_level, log_error, log_at. rewrite Hnone.
    destruct (LOG_LEVELS ERROR >=? CURRENT_LOG_LEVEL s) eqn:Hge;
      rewrite Z.geb_leb in Hge;
      [apply Z.leb_le in Hge|apply Z.leb_gt in Hge];
      unfold log; simpl; repeat split; auto; intros; simpl in *; lia.
  - intros Hsome. unfold set_log_level, log_info, log_at. rewrite Hsome.
    destruct level; unfold log; simpl;
      repeat split; auto; intros Hcmp; try reflexivity;
      exfalso; simpl in Hcmp; lia.
  - reflexivity.
Qed.

(** ** install.sh, the permissions *)

Lemma strip_prefix_app (prefix rest : string) :
  strip_prefix prefix (prefix ++ rest)%string = Some rest.
Proof.
  induction prefix as [|a prefix IH]; simpl; [reflexivity|].
  now rewrite Ascii.eqb_refl.
Qed.

Lemma star_matches_no_slash (name : string) :
  star_matches name = true -> contains_char "/" name = false.
Proof.
  unfold star_matches. destruct name as [|c rest]; [discriminate|].
  intros H. apply andb_true_iff in H. destruct H as [_ H].
  now apply negb_true_iff in H.
Qed.

Lemma script_path_matches (directory name : string) :
  star_matches directory = true ->
  star_matches name = true ->
  ends_with ".sh" name = true ->
  scripts_pattern
    (INSTALL_DIR ++ "/scripts/" ++ directory ++ "/" ++ name)%string
  = true.
Proof.
  intros Hdir Hname Hsh. unfold scripts_pattern.
  change (INSTALL_DIR ++ "/scripts/" ++ directory ++ "/" ++ name)%string
    with ((INSTALL_DIR ++ "/scripts/") ++ directory ++ "/" ++ name)%string.
  rewrite strip_prefix_app.
  change (directory ++ "/" ++ name)%string
    with (directory ++ String "/" name)%string.
  rewrite (split_first_found "/" directory name
             (star_matches_no_slash directory Hdir)).
  now rewrite Hdir, Hname, Hsh.
Qed.

Lemma strip_prefix_inv (prefix : string) :
  forall s rest, strip_prefix prefix s = Some rest -> s = (prefix ++ rest)%string.
Proof.
  induction prefix as [|a prefix IH]; intros s rest; cbn [strip_prefix].
  - intros H. now injection H as <-.
  - destruct s as [|b s]; [discriminate|].
    destruct (Ascii.eqb_spec a b) as [<-|]; [|discriminate].
    intros H. cbn [append]. f_equal. now apply IH.
Qed.

Lemma scripts_pattern_elsewhere (path : string) :
  scripts_pattern path = true ->
  under (INSTALL_DIR ++ "/logs") path = false
  /\ config_pattern path = false.
Proof.
  unfold scripts_pattern.
  destruct (strip_prefix (INSTALL_DIR ++ "/scripts/") path) as [below|] eqn:Hs;
    [|discriminate].
  intros _. apply strip_prefix_inv in Hs. subst path.
  split; reflexivity.
Qed.

Lemma chmod_step (cond : string -> bool) (m : Z) (f : file_entry) :
  let f' := if cond (file_path f) then with_mode m f else f in
  file_path f' = file_path f
  /\ is_directory f' = is_directory f
  /\ (cond (file_path f) = true -> mode f' = m)
  /\ (cond (file_path f) = false -> mode f' = mode f).
Proof.
  simpl. destruct (cond (file_path f)); simpl; repeat split; auto;
    discriminate.
Qed.

Lemma set_permissions_origin (fs : list file_entry) (f' : file_entry) :
  In f' (set_permissions fs) ->
  exists f,
    In f fs /\ file_path f' = file_path f
    /\ is_directory f' = is_directory f
    /\ (scripts_pattern (file_path f) = true -> mode f' = mode_640).
Proof.
  unfold set_permissions, chmod_pattern, chmod_recursive.
  rewrite !map_map. intros Hin. apply in_map_iff in Hin.
  destruct Hin as [f [Heq Hf]]. exists f. split; [exact Hf|].
  subst f'.
  destruct (chmod_step (under (INSTALL_DIR ++ "/scripts")) mode_750 f)
    as [Hp1 [Hd1 _]].
  set (f1 := if under (INSTALL_DIR ++ "/scripts") (file_path f)
             then with_mode mode_750 f else f) in *.
  destruct (chmod_step scripts_pattern mode_640 f1) as [Hp2 [Hd2 [Hm2 _]]].
  set (f2 := if scripts_pattern (file_path f1)
             then with_mode mode_640 f1 else f1) in *.
  destruct (chmod_step (under (INSTALL_DIR ++ "/logs")) mode_750 f2)
    as [Hp3 [Hd3 [_ Hm3]]].
  set (f3 := if under (INSTALL_DIR ++ "/logs") (file_path f2)
             then with_mode mode_750 f2 else f2) in *.
  destruct (chmod_step config_pattern mode_640 f3) as [Hp4 [Hd4 [_ Hm4]]].
  set (f4 := if config_pattern (file_path f3)
             then with_mode mode_640 f3 else f3) in *.
  split; [congruence|]. split; [congruence|].
  intros Hscript.
  destruct (scripts_pattern_elsewhere _ Hscript) as [Hlogs Hconfig].
  rewrite Hm4 by (rewrite Hp3, Hp2, Hp1; exact Hconfig).
  rewrite Hm3 by (rewrite Hp2, Hp1; exact Hlogs).
  apply Hm2. rewrite Hp1. exact Hscript.
Qed.

(** X27. After the four [chmod] lines of the installer, every path of the
    form [/home/clp/scripts/<directory>/<name>.sh] (neither name starting
    with a dot) has mode 640, whatever its mode was after the copy: the
    recursive 750 is overridden by the pattern, and no execute bit is left
    on any handler script, on queue_worker.sh or on status_monitor.sh. *)
Theorem installed_scripts_have_no_execute_bit (fs : list file_entry)
    (directory name : string) (f' : file_entry) :
  star_matches directory = true ->
  star_matches name = true ->
  ends_with ".sh" name = true ->
  In f' (set_permissions fs) ->
  file_path f'
  = (INSTALL_DIR ++ "/scripts/" ++ directory ++ "/" ++ name)%string ->
  mode f' = mode_640 /\ has_execute_bit (mode f') = false.
Proof.
  intros Hdir Hname Hsh Hin Hpath.
  destruct (set_permissions_origin fs f' Hin) as [f [_ [Hsame [_ Hmode]]]].
  assert (H640 : mode f' = mode_640).
  { apply Hmode. rewrite <- Hsame, Hpath. now apply script_path_matches. }
  split; [exact H640|]. now rewrite H640.
Qed.

Lemma installed_scripts_have_no_execute_bit_witness :
  mode (mkFile "/home/clp/scripts/sites/manage_site.sh" false 416) = mode_640
  /\ has_execute_bit
       (mode (mkFile "/home/clp/scripts/sites/manage_site.sh" false 416))
     = false.
Proof.
  apply (installed_scripts_have_no_execute_bit copied_files "sites"
           "manage_site.sh").
  - reflexivity.
  - reflexivity.
  - reflexivity.
  - vm_compute. tauto.
  - reflexivity.
Defined.

(** ** The two daemons as bash runs them *)

Lemma process_operation_does_not_parse :
  parses process_operation_words = false
  /\ parses monitor_operations_words = true.
Proof. split; reflexivity. Qed.


(** status_monitor.sh ends at the first command of [monitor_status]: all
    its functions are defined, [log_monitor] is called, and [log_message]
    is not found. *)
Lemma status_monitor_stops (h : host) (cycles : nat) (w : world) :
  status_monitor h cycles w
  = (mkShell
       ([ "monitor_status"; "generate_status_report";
          "cleanup_old_operations"; "handle_timeout";
          "check_timed_out_operations"; "handle_stuck_operation";
          "check_stuck_operations"; "log_monitor"; "handle_error" ]
        ++ sourced_functions)
       true [] 127 w,
     Some 127).
Proof. reflexivity. Qed.

Lemma dispatcher_run_tables (monitor_operations : list string -> sh unit)
    (file : option string) (s : store) :
  tables_after (queue_worker monitor_operations file (start_world s)) = s.
Proof. reflexivity. Qed.

Lemma watchdog_run_tables (h : host) (cycles : nat) (s : store) :
  tables_after (status_monitor h cycles (start_world s)) = s.
Proof. reflexivity. Qed.



(** C7 (not met by the scripts). The watchdog resolves no row.  After any
    number of turns of the loop the script has ended with status 127 and a
    row that was [processing] with [started_at] more than 30 minutes in the
    past when the script started is still in the table and still
    [processing]; it matches the stuck query at every later reading of the
    clock as well. *)
Theorem stuck_row_is_not_resolved (h : host) (cycles : nat) (s : store) :
  let run := status_monitor h cycles (start_world s) in
  snd run = Some 127
  /\ (forall now r,
        In r (operations s) ->
        is_stuck now r = true ->
        In r (operations (tables_after run))
        /\ status r = processing
        /\ (forall later,
              now <= later ->
              In r (stuck_ops later (operations (tables_after run))))).
Proof.
  cbv zeta. unfold tables_after. rewrite status_monitor_stops.
  cbn [fst snd outside functions tables statements date_calls start_world].
  split; [reflexivity|].
  intros now r Hr Hstuck. split; [exact Hr|].
  unfold is_stuck in Hstuck. apply andb_true_iff in Hstuck.
  destruct Hstuck as [Hst Hold]. split.
  - destruct (status r); easy.
  - intros later Hlater. unfold stuck_ops. apply filter_In.
    split; [exact Hr|]. unfold is_stuck. rewrite Hst. simpl.
    unfold older_than in *. destruct (started_at r) as [t|]; [|discriminate].
    apply Z.ltb_lt in Hold. apply Z.ltb_lt. lia.
Qed.

(** C8 (not met by the scripts). The daily sweep never runs.  On a host
    where it is midnight at every reading of [date], the script still ends
    with status 127 before it reads the date: a row that is [completed] or
    [failed] with [completed_at] older than the 30-day cutoff is still in
    the live table, and the archive is as it was. *)
Theorem old_rows_stay_in_the_live_table (h : host) (cycles : nat)
    (s : store) :
  let run := status_monitor h cycles (start_world s) in
  snd run = Some 127
  /\ date_calls (outside (fst run)) = 0%nat
  /\ operations_archive (tables_after run) = operations_archive s
  /\ (forall now r,
        In r (operations s) ->
        is_archivable now r = true ->
        In r (operations (tables_after run))
        /\ (~ In r (operations_archive s) ->
            ~ In r (operations_archive (tables_after run)))).
Proof.
  cbv zeta. unfold tables_after. rewrite status_monitor_stops.
  cbn [fst snd outside functions tables statements date_calls start_world].
  repeat (split; [reflexivity|]).
  intros now r Hr _. split; [exact Hr|auto].
Qed.

(** C9 (not met by the scripts). Every row that matches the timeout query
    matches the stuck query, at the same reading of the clock and at any
    reading up to 30 minutes earlier.  But the stuck check takes no row out
    of [processing]: the script ends with status 127 before its first
    query, and the rows that match the two queries are the same after the
    run as before it. *)
Theorem timeout_query_within_stuck_query (h : host) (cycles : nat)
    (s : store) :
  let run := status_monitor h cycles (start_world s) in
  (forall stuck_now timeout_now r,
      timeout_now <= stuck_now + (timeout_age - stuck_age) ->
      is_timed_out timeout_now r = true ->
      is_stuck stuck_now r = true)
  /\ snd run = Some 127
  /\ (forall now,
        stuck_ops now (operations (tables_after run))
        = stuck_ops now (operations s)
        /\ timed_out_ops now (operations (tables_after run))
           = timed_out_ops now (operations s))
  /\ (forall now r,
        In r (operations s) ->
        is_timed_out now r = true ->
        In r (timed_out_ops now (operations (tables_after run)))).
Proof.
  cbv zeta. unfold tables_after. rewrite status_monitor_stops.
  cbn [fst snd outside functions tables statements date_calls start_world].
  split.
  - intros stuck_now timeout_now r Hclose.
    unfold is_timed_out, is_stuck, older_than, timeout_age, stuck_age in *.
    intros H. apply andb_true_iff in H. destruct H as [Hst Hold].
    apply andb_true_iff. split; [exact Hst|].
    destruct (started_at r) as [t|]; [|discriminate].
    apply Z.ltb_lt in Hold. apply Z.ltb_lt. lia.
  - split; [reflexivity|]. split; [intros now; split; reflexivity|].
    intros now r Hr Hto. unfold timed_out_ops. apply filter_In. auto.
Qed.

(** ** What the functions of the watchdog keep, in any shell *)

Lemma keeps_ret (T : store -> Prop) (A : Type) (a : A) : keeps T (ret a).
Proof. intros w Hw. exact Hw. Qed.

Lemma keeps_exit_with (T : store -> Prop) (A : Type) (status : Z) :
  keeps T (@exit_with A status).
Proof. intros w Hw. exact Hw. Qed.

Lemma keeps_bind (T : store -> Prop) (A B : Type) (m : sh A)
    (f : A -> sh B) :
  keeps T m -> (forall a, keeps T (f a)) -> keeps T (bind m f).
Proof.
  intros Hm Hf w Hw. unfold bind. specialize (Hm w Hw).
  destruct (m w) as [[a|status] w']; simpl in *; [now apply Hf|exact Hm].
Qed.

(** The same, when what follows needs to know something of the value it is
    given. *)
Lemma keeps_bind_with (T : store -> Prop) (A B : Type) (Q : A -> Prop)
    (m : sh A) (f : A -> sh B) :
  (forall w, T (tables w) ->
     T (tables (snd (m w)))
     /\ forall a, fst (m w) = Returned a -> Q a) ->
  (forall a, Q a -> keeps T (f a)) ->
  keeps T (bind m f).
Proof.
  intros Hm Hf w Hw. unfold bind. destruct (Hm w Hw) as [Hkeep Hvalue].
  destruct (m w) as [[a|status] w']; simpl in *; [|exact Hkeep].
  apply (Hf a); auto.
Qed.

Lemma keeps_errexit (T : store -> Prop) (status : Z) :
  keeps T (errexit status).
Proof.
  unfold errexit. destruct (status =? 0); [apply keeps_ret|].
  apply keeps_exit_with.
Qed.

Lemma keeps_log_monitor (T : store -> Prop) (h : host)
    (functions : list string) (message : string) :
  keeps T (log_monitor h functions message).
Proof.
  intros w Hw. unfold log_monitor.
  destruct (command_found functions "log_message"); [|exact Hw].
  unfold errexit. destruct (log_message h (log_calls w) =? 0); exact Hw.
Qed.

Lemma keeps_send_statement (T : store -> Prop) (h : host) :
  keeps T (send_statement h).
Proof. intros w Hw. exact Hw. Qed.

Lemma keeps_read_date (T : store -> Prop) (h : host) :
  keeps T (read_date h).
Proof. intros w Hw. exact Hw. Qed.

Lemma keeps_update_rows (T : store -> Prop) (h : host)
    (cond : operation -> bool) (set : operation -> operation) :
  (forall s,
      T s ->
      T (mkStore (update_where cond set (operations s))
           (operations_archive s))) ->
  keeps T (update_rows h cond set).
Proof.
  intros Hset w Hw. unfold update_rows, bind, send_statement.
  destruct (sqlite3 h (statements w)); simpl; [now apply Hset|exact Hw].
Qed.

(** What a hidden query gives to what follows it. *)
Lemma select_hidden_gives (T : store -> Prop) (A : Type) (Q : A -> Prop)
    (h : host) (query : Z -> list operation -> A) (empty : A) :
  Q empty ->
  (forall n now s,
      sqlite3 h n = answered now -> T s -> Q (query now (operations s))) ->
  forall w,
    T (tables w) ->
    T (tables (snd (select_hidden h query empty w)))
    /\ forall a, fst (select_hidden h query empty w) = Returned a -> Q a.
Proof.
  intros Hempty Hquery w Hw.
  unfold select_hidden, bind, send_statement, read_tables, ret. simpl.
  split; [exact Hw|].
  intros a Ha. injection Ha as <-.
  destruct (sqlite3 h (statements w)) as [now|status] eqn:Hanswer;
    [|exact Hempty].
  now apply (Hquery (statements w)).
Qed.

Lemma keeps_for_each_id (T : store -> Prop) (handle : Z -> sh unit)
    (selected : list operation) :
  (forall q, In q selected -> keeps T (handle (id q))) ->
  keeps T (for_each_id handle selected).
Proof.
  induction selected as [|q rest IH]; intros Hhandle; simpl.
  - apply keeps_ret.
  - apply keeps_bind; [apply Hhandle; now left|].
    intros _. apply IH. intros q' Hq'. apply Hhandle. now right.
Qed.

Lemma keeps_select_hidden (T : store -> Prop) (A : Type) (h : host)
    (query : Z -> list operation -> A) (empty : A) :
  keeps T (select_hidden h query empty).
Proof. intros w Hw. exact Hw. Qed.

Section WatchdogInvariant.

(** A property of the tables that the statements of the watchdog respect on
    a host: an UPDATE of a row the property allows to be written, the
    INSERT into the archive, and the DELETE.  The rows a check selects are
    rows the property allows to be written. *)
Variable h : host.
Variable functions : list string.
Variable T : store -> Prop.
Variable allowed : Z -> Prop.

Hypothesis T_update :
  forall op_id set s,
    allowed op_id ->
    (forall q, id (set q) = id q) ->
    T s ->
    T (mkStore (update_where (has_id op_id) set (operations s))
         (operations_archive s)).
Hypothesis T_selected :
  forall n now s q,
    sqlite3 h n = answered now ->
    T s ->
    In q (stuck_ops now (operations s)) ->
    allowed (id q).
Hypothesis T_insert :
  forall n now s,
    sqlite3 h n = answered now ->
    T s ->
    T (mkStore (operations s)
         (operations_archive s ++ filter (is_archivable now) (operations s))).
Hypothesis T_delete :
  forall n now s,
    sqlite3 h n = answered now ->
    T s ->
    T (mkStore (filter (fun r => negb (is_archivable now r)) (operations s))
         (operations_archive s)).

Lemma keeps_retry_or_fail
    (retry_note retry_message failed_note failed_message : string)
    (op_id : Z) :
  allowed op_id ->
  keeps T
    (retry_or_fail h functions retry_note retry_message failed_note
       failed_message op_id).
Proof.
  intros Hallowed. unfold retry_or_fail.
  apply keeps_bind; [apply keeps_select_hidden|]. intros retries.
  destruct (below_max_retries retries);
    (apply keeps_bind; [|intros _; apply keeps_log_monitor]);
    apply keeps_update_rows; intros s Hs; now apply T_update.
Qed.

Lemma keeps_handle_stuck_operation (op_id : Z) :
  allowed op_id -> keeps T (handle_stuck_operation h functions op_id).
Proof.
  intros Hallowed. unfold handle_stuck_operation.
  apply keeps_bind; [apply keeps_log_monitor|]. intros _.
  now apply keeps_retry_or_fail.
Qed.

Lemma keeps_handle_timeout (op_id : Z) :
  allowed op_id -> keeps T (handle_timeout h functions op_id).
Proof.
  intros Hallowed. unfold handle_timeout.
  apply keeps_bind; [apply keeps_log_monitor|]. intros _.
  now apply keeps_retry_or_fail.
Qed.

Lemma keeps_check_stuck_operations :
  keeps T (check_stuck_operations h functions).
Proof.
  unfold check_stuck_operations.
  apply keeps_bind; [apply keeps_log_monitor|]. intros _.
  apply (keeps_bind_with T _ _
           (fun selected => forall q, In q selected -> allowed (id q))).
  - apply select_hidden_gives.
    + intros q [].
    + intros n now s Hanswer Hs q Hq. now apply (T_selected n now s).
  - intros selected Hselected. apply keeps_for_each_id.
    intros q Hq. apply keeps_handle_stuck_operation. now apply Hselected.
Qed.

Lemma keeps_check_timed_out_operations :
  keeps T (check_timed_out_operations h functions).
Proof.
  unfold check_timed_out_operations.
  apply keeps_bind; [apply keeps_log_monitor|]. intros _.
  apply (keeps_bind_with T _ _
           (fun selected => forall q, In q selected -> allowed (id q))).
  - apply select_hidden_gives.
    + intros q [].
    + intros n now s Hanswer Hs q Hq. apply (T_selected n now s); auto.
      unfold timed_out_ops in Hq. apply filter_In in Hq.
      unfold stuck_ops. apply filter_In.
      split; [tauto|]. apply timed_out_is_stuck. tauto.
  - intros selected Hselected. apply keeps_for_each_id.
    intros q Hq. apply keeps_handle_timeout. now apply Hselected.
Qed.

Lemma keeps_cleanup_old_operations :
  keeps T (cleanup_old_operations h functions).
Proof.
  unfold cleanup_old_operations.
  apply keeps_bind; [apply keeps_log_monitor|]. intros _.
  intros w Hw.
  unfold bind, send_statement, read_tables, write_tables, exit_with.
  cbn [fst snd tables statements].
  destruct (sqlite3 h (statements w)) as [insert_now|status] eqn:Hinsert;
    [|exact Hw].
  cbn [fst snd tables statements operations operations_archive].
  pose proof (T_insert _ _ _ Hinsert Hw) as Hinserted.
  destruct (sqlite3 h (S (statements w))) as [delete_now|status] eqn:Hdelete;
    cbn [fst snd tables statements operations operations_archive];
    [|exact Hinserted].
  exact (T_delete _ _ _ Hdelete Hinserted).
Qed.

Lemma keeps_generate_status_report :
  keeps T (generate_status_report h functions).
Proof.
  unfold generate_status_report.
  apply keeps_bind; [apply keeps_log_monitor|]. intros _.
  apply keeps_bind; [apply keeps_send_statement|]. intros _.
  apply keeps_bind; [apply keeps_log_monitor|]. intros _.
  apply keeps_log_monitor.
Qed.

Lemma keeps_monitor_status_cycle :
  keeps T (monitor_status_cycle h functions).
Proof.
  unfold monitor_status_cycle.
  apply keeps_bind; [apply keeps_check_stuck_operations|]. intros _.
  apply keeps_bind; [apply keeps_check_timed_out_operations|]. intros _.
  apply keeps_bind; [apply keeps_read_date|]. intros at_midnight.
  destruct at_midnight; [|apply keeps_ret].
  apply keeps_bind; [apply keeps_generate_status_report|]. intros _.
  apply keeps_cleanup_old_operations.
Qed.

Lemma keeps_monitor_status (cycles : nat) :
  keeps T (monitor_status h functions cycles).
Proof.
  unfold monitor_status.
  apply keeps_bind; [apply keeps_log_monitor|]. intros _.
  induction cycles as [|more IH]; simpl; [apply keeps_ret|].
  apply keeps_bind; [apply keeps_monitor_status_cycle|]. intros _. exact IH.
Qed.

End WatchdogInvariant.

Lemma selected_row_is_another (now : Z) (ops : list operation)
    (r q : operation) :
  ids_unique ops ->
  In r ops ->
  is_stuck now r = false ->
  In q (stuck_ops now ops) ->
  id q <> id r.
Proof.
  intros Hnd Hr Hnot Hq Hid. unfold stuck_ops in Hq.
  apply filter_In in Hq. destruct Hq as [Hq Hstuck].
  rewrite (same_id_same_row ops r q Hnd Hr Hq Hid) in Hstuck. congruence.
Qed.

(** X7. In any shell, with or without a [log_message], and whatever the
    database answers or refuses, the watchdog leaves alone a row that none
    of its statements can select on the host (a row that is not
    [processing], or has no [started_at], or started less than 30 minutes
    before every reading of the clock, and that is not finished for more
    than 30 days): after any number of turns of the loop, however the
    script has ended, the row is in the live table exactly as it was, and
    it has not been added to the archive. *)
Theorem watchdog_leaves_unselected_rows (h : host) (functions : list string)
    (cycles : nat) (w : world) (r : operation) :
  ids_unique (operations (tables w)) ->
  one_line_per_row (operations (tables w)) ->
  In r (operations (tables w)) ->
  never_selected h r ->
  let after := tables (snd (monitor_status h functions cycles w)) in
  In r (operations after)
  /\ ids_unique (operations after)
  /\ (In r (operations_archive after) -> In r (operations_archive (tables w))).
Proof.
  intros Hnd _ Hr Hnever. cbv zeta.
  assert (Hkeeps : keeps (left_alone r (In r (operations_archive (tables w))))
                     (monitor_status h functions cycles)).
  { apply (keeps_monitor_status h functions _ (fun op_id => op_id <> id r)).
    - intros op_id set s Hne Hset [Hnd' [Hr' Harch]].
      split; [|split]; simpl.
      + unfold ids_unique. now rewrite update_where_ids.
      + unfold update_where. apply in_map_iff. exists r. split; [|exact Hr'].
        assert (Hother : has_id op_id r = false)
          by (apply has_id_false; congruence).
        now rewrite Hother.
      + exact Harch.
    - intros n now s q Hanswer [Hnd' [Hr' _]] Hq.
      apply (selected_row_is_another now (operations s)); auto.
      now destruct (Hnever n now Hanswer).
    - intros n now s Hanswer [Hnd' [Hr' Harch]].
      split; [exact Hnd'|]. split; [exact Hr'|]. simpl.
      intros Hin. apply in_app_or in Hin. destruct Hin as [Hin|Hin]; [auto|].
      apply filter_In in Hin. destruct (Hnever n now Hanswer). intuition congruence.
    - intros n now s Hanswer [Hnd' [Hr' Harch]].
      split; [|split]; simpl.
      + now apply filter_ids_unique.
      + apply filter_In. split; [exact Hr'|].
        destruct (Hnever n now Hanswer) as [_ Hnot]. now rewrite Hnot.
      + exact Harch. }
  destruct (Hkeeps w) as [Hnd' [Hr' Harch]].
  - split; [exact Hnd|]. split; [exact Hr|auto].
  - auto.
Qed.

Lemma watchdog_leaves_unselected_rows_witness :
  In waiting_row
    (operations
       (tables
          (snd (monitor_status (calm_host 5000) ["log_message"] 2
                  (start_world
                     (mkStore [stalled_row; finished_row; waiting_row] []))))))
  /\ In (reset_for_retry stuck_retry_note stalled_row)
       (operations
          (tables
             (snd (monitor_status (calm_host 5000) ["log_message"] 2
                     (start_world
                        (mkStore [stalled_row; finished_row; waiting_row]
                           [])))))).
Proof.
  split.
  - apply (watchdog_leaves_unselected_rows (calm_host 5000) ["log_message"] 2
             (start_world (mkStore [stalled_row; finished_row; waiting_row] []))
             waiting_row).
    + unfold ids_unique. simpl.
      repeat constructor; simpl; intuition discriminate.
    + repeat constructor.
    + simpl. auto.
    + intros n now Hanswer. injection Hanswer as <-. split; reflexivity.
  - vm_compute. auto.
Defined.

(** X5. In any shell and on any host, the watchdog only ever adds to the
    archive, and what it adds is finished history: after any number of
    turns of the loop, however the script has ended, the archive is the
    archive it found followed by rows that are [completed] or [failed] with
    [completed_at] set. *)
Theorem archive_only_grows (h : host) (functions : list string)
    (cycles : nat) (w : world) :
  one_line_per_row (operations (tables w)) ->
  archive_grown (tables w)
    (tables (snd (monitor_status h functions cycles w))).
Proof.
  intros _.
  assert (Hkeeps : keeps (archive_grown (tables w))
                     (monitor_status h functions cycles)).
  { apply (keeps_monitor_status h functions _ (fun _ => True)).
    - intros op_id set s _ _ Hs. exact Hs.
    - auto.
    - intros n now s _ [added [Heq Hadded]]. simpl.
      exists (added ++ filter (is_archivable now) (operations s)).
      split; [rewrite Heq; now rewrite app_assoc|].
      apply Forall_app. split; [exact Hadded|].
      apply Forall_forall. intros q Hq. apply filter_In in Hq.
      apply (archivable_is_archived_row now). tauto.
    - intros n now s _ Hs. exact Hs. }
  apply Hkeeps. exists []. split; [now rewrite app_nil_r|constructor].
Qed.


Lemma archive_only_grows_witness :
  archive_grown (mkStore [waiting_row; finished_row] [])
    (tables
       (snd (monitor_status (calm_host 5000000) ["log_message"] 1
               (start_world (mkStore [waiting_row; finished_row] [])))))
  /\ operations_archive
       (tables
          (snd (monitor_status (calm_host 5000000) ["log_message"] 1
                  (start_world (mkStore [waiting_row; finished_row] [])))))
     = [finished_row].
Proof.
  split.
  - apply (archive_only_grows (calm_host 5000000) ["log_message"] 1
             (start_world (mkStore [waiting_row; finished_row] []))).
    repeat constructor.
  - vm_compute. reflexivity.
Defined.

(** ** The subsystem, step by step *)

Lemma site_handler_calls
    (site_action : string -> option json_object -> Z)
    (operation_arg : string) (OPERATION_ID : Z) (ops : list operation)
    (c : db_call) :
  In c (fst (manage_site_main site_action operation_arg OPERATION_ID ops)) ->
  c = UpdateStatus OPERATION_ID processing EmptyString
  \/ c = UpdateStatus OPERATION_ID completed EmptyString.
Proof.
  unfold manage_site_main, run_site_action.
  split_conditions; simpl; intros Hc;
    repeat (destruct Hc as [Hc|Hc]; [subst c; auto|]);
    contradiction.
Qed.


Section RowRelation.

(** A relation between a row and a later state of it that the status
    writes made at some readings of the clock respect. *)
Variable reading : Z -> Prop.
Variable R : operation -> operation -> Prop.
Hypothesis R_refl : forall r, R r r.
Hypothesis R_trans : forall a b c, R a b -> R b c -> R a c.
Hypothesis R_processing :
  forall now r, reading now -> R r (set_processing now r).
Hypothesis R_completed :
  forall now r, reading now -> R r (set_completed now r).
Hypothesis R_failed :
  forall now msg r, reading now -> R r (set_failed now msg r).

Lemma related_refl (ops : list operation) : Forall2 R ops ops.
Proof. induction ops; constructor; auto. Qed.

Lemma related_trans (a b c : list operation) :
  Forall2 R a b -> Forall2 R b c -> Forall2 R a c.
Proof.
  intros Hab. revert c. induction Hab as [|x y l l' Hxy _ IH]; intros c Hbc;
    inversion Hbc; subst; constructor; eauto.
Qed.

Lemma related_origin (a b : list operation) (r' : operation) :
  Forall2 R a b -> In r' b -> exists r, In r a /\ R r r'.
Proof.
  induction 1 as [|x y l l' Hxy _ IH]; simpl; intros Hin; [contradiction|].
  destruct Hin as [Hin|Hin].
  - subst. eauto.
  - destruct (IH Hin) as [r [Hr Hrel]]. eauto.
Qed.

Lemma related_update_where (cond : operation -> bool)
    (set : operation -> operation) (ops : list operation) :
  (forall r, R r (set r)) -> Forall2 R ops (update_where cond set ops).
Proof.
  intros Hset. induction ops as [|a l IH]; simpl; constructor; auto.
  destruct (cond a); auto.
Qed.

Lemma related_status_write (operation_id : Z) (st : op_status)
    (msg : string) (now : Z) (ops : list operation) :
  reading now ->
  Forall2 R ops (update_operation_status operation_id st msg now ops).
Proof.
  intros Hnow. destruct st; simpl.
  - apply related_refl.
  - apply related_update_where. auto.
  - apply related_update_where. auto.
  - apply related_update_where. auto.
Qed.

Lemma related_status_calls (clock : nat -> Z) (requests : list db_call) :
  (forall n, reading (clock n)) ->
  (forall c, In c requests -> exists i st msg, c = UpdateStatus i st msg) ->
  forall n ops, Forall2 R ops (run_db_calls_from clock n requests ops).
Proof.
  intros Hclock. induction requests as [|c rest IH];
    intros Hcalls n ops; simpl.
  - apply related_refl.
  - destruct (Hcalls c (or_introl eq_refl)) as [i [st [msg ->]]].
    eapply related_trans;
      [apply (related_status_write i st msg (clock n)); auto|].
    apply IH. intros c' Hc'. apply Hcalls. now right.
Qed.

(** Along a step, a row of the table after the step is either a later
    state of a row of the table before it, or the row the producer has
    just inserted under an id that was not in use. *)
Lemma related_step (e : event) (s s' : store) (r' : operation) :
  (forall t, written_at e t -> reading t) ->
  apply_event e s = Some s' ->
  In r' (operations s') ->
  (exists r, In r (operations s) /\ R r r')
  \/ ((forall r, In r (operations s) -> id r <> id r')
      /\ status r' = pending
      /\ retry_count r' = retry_count_default
      /\ completed_at r' = None).
Proof.
  intros Htime Hstep Hr'.
  destruct e as [new_id ty payload src t|site_action arg i clock
                |clpctl user_listed arg i clock|i st msg t|run file|h cycles];
    cbn [apply_event] in Hstep.
  - destruct (fresh_id new_id (operations s)) eqn:Hfresh; [|discriminate].
    injection Hstep as <-. simpl in Hr'. unfold insert_operation in Hr'.
    apply in_app_or in Hr'. destruct Hr' as [Hr'|[Hr'|[]]].
    + left. eauto.
    + right. subst r'. simpl. split; [|auto].
      intros r Hr Hid. unfold fresh_id in Hfresh.
      apply negb_true_iff in Hfresh.
      assert (Hex : existsb (has_id new_id) (operations s) = true).
      { apply existsb_exists. exists r. split; [exact Hr|].
        now apply has_id_true. }
      congruence.
  - injection Hstep as <-. simpl in Hr'. left.
    refine (related_origin _ _ r' _ Hr'). apply related_status_calls.
    + intros n. apply Htime. simpl. eauto.
    + intros c Hc. apply site_handler_calls in Hc.
      destruct Hc as [->| ->]; eauto.
  - injection Hstep as <-. simpl in Hr'. left.
    refine (related_origin _ _ r' _ Hr'). apply related_status_calls.
    + intros n. apply Htime. simpl. eauto.
    + intros c Hc.
      destruct (user_run_cases clpctl user_listed arg i (operations s))
        as [[_ [msg Hcalls]]|[_ Hcalls]]; rewrite Hcalls in Hc.
      * destruct Hc as [<-|[]]. eauto.
      * contradiction.
  - destruct (literal_call (UpdateStatus i st msg)); [|discriminate].
    injection Hstep as <-. simpl in Hr'. left.
    refine (related_origin _ _ r' (related_status_write i st msg t _ _) Hr').
    apply Htime. reflexivity.
  - rewrite dispatcher_run_tables in Hstep. injection Hstep as <-.
    left. eauto.
  - rewrite watchdog_run_tables in Hstep. injection Hstep as <-.
    left. eauto.
Qed.

End RowRelation.








Lemma evolves_refl (r : operation) : evolves r r.
Proof. unfold evolves. repeat split; auto. lia. Qed.

Lemma evolves_trans (a b c : operation) :
  evolves a b -> evolves b c -> evolves a c.
Proof.
  unfold evolves. intros Hab Hbc.
  destruct Hab as (?&?&?&?&?&?&?&?&?&?), Hbc as (?&?&?&?&?&?&?&?&?&?).
  repeat split; try congruence; auto. lia.
Qed.

Ltac solve_evolves :=
  intros; unfold evolves; simpl; repeat split; auto; try discriminate; lia.

(** X4. Along any step of the subsystem (an insertion, a run of a handler,
    a status write with a literal message, a run of the dispatcher or of
    the watchdog), a row that stays in the table keeps its [type], [data],
    [source] and [created_at]; an [error], [result], [started_at] or
    [completed_at] that held a value still holds one; and [retry_count]
    does not go down. *)
Theorem rows_keep_their_history (e : event) (s s' : store)
    (r r' : operation) :
  ids_unique (operations s) ->
  apply_event e s = Some s' ->
  In r (operations s) ->
  In r' (operations s') ->
  id r' = id r ->
  evolves r r'.
Proof.
  intros Hnd Hstep Hr Hr' Hid.
  destruct (related_step (fun _ => True) evolves evolves_refl evolves_trans
              ltac:(solve_evolves) ltac:(solve_evolves) ltac:(solve_evolves)
              e s s' r' (fun _ _ => I) Hstep Hr')
    as [[r0 [Hr0 Hrel]]|[Hfresh _]].
  - assert (Hid0 : id r0 = id r).
    { destruct Hrel as [Hid0 _]. congruence. }
    now rewrite <- (same_id_same_row (operations s) r r0 Hnd Hr Hr0 Hid0).
  - exfalso. apply (Hfresh r Hr). now symmetry.
Qed.

Lemma rows_keep_their_history_witness :
  evolves waiting_row (set_completed 560 (set_processing 500 waiting_row)).
Proof.
  apply (rows_keep_their_history
           (SiteHandlerRun clpctl_ok "create" 3 handler_clock)
           (mkStore [waiting_row; finished_row] [])
           (mkStore [set_completed 560 (set_processing 500 waiting_row);
                     finished_row] [])).
  - unfold ids_unique. simpl.
    repeat constructor; simpl; intuition discriminate.
  - vm_compute. reflexivity.
  - simpl. auto.
  - simpl. auto.
  - reflexivity.
Defined.
